(** * NetworkManager: a shallow embedding of the two registry contracts

    The repository carries two Solidity contracts named [NetworkManager]:

    - the Ownable one (OpenZeppelin [Ownable] authority, a record mapping,
      the [memberAddresses] array and the [memberIndex] reverse map), and
    - the manager one (its own [manager] slot, [memberCount], a linear
      search on removal, [transferManagerRole] and
      [updateSubnetMemberDetail]).

    Both are embedded below as programs of a small transaction monad:
    a reader for [msg.sender] and [block.timestamp], the contract storage
    as state, an event log, and reverts.  A reverted transaction leaves the
    storage it started from and emits nothing. *)

From stdpp Require Import base decidable option numbers list gmap strings.
From Stdlib Require Import NArith Lia.

Local Open Scope N_scope.

(** ** Solidity value types *)

(** [address] is a 160-bit and [uint256] a 256-bit unsigned integer; the
    contracts do no arithmetic on addresses and only checked arithmetic on
    [uint256].  Arguments are stored as received: the ABI decoder rejects a
    value outside its type before the function body runs. *)
Definition address : Type := N.
Definition uint256 : Type := N.
Definition uint16 : Type := N.
Definition bytes : Type := list N.

Definition uint256_max : N := 2 ^ 256 - 1.

(** [struct NodeMember].  The manager contract calls the second field
    [nodeAddress]; the layout is otherwise the same.  The fields live in a
    module so that a function parameter may carry the name of a field, as
    in the source. *)
Module NodeMember.
Record t : Type := mk {
  x500Name : string;
  memberAddress : address;
  publicKey : bytes;
  isActive : bool;
  joinedAt : uint256;
  lastUpdated : uint256;
  serial : uint256;
  platformVersion : uint16;
  host : string;
  port : uint16
}.
End NodeMember.
Import NodeMember.

Abbreviation NodeMember := NodeMember.t.
Abbreviation mkNodeMember := NodeMember.mk.
Abbreviation nodeAddress := NodeMember.memberAddress (only parsing).

(** The value every mapping slot reads before it is written and after
    [delete]. *)
Definition zeroMember : NodeMember :=
  mkNodeMember "" 0 [] false 0 0 0 0 "" 0.

(** Assignments to one field of a storage struct. *)
Definition set_x500Name (v : string) (r : NodeMember) : NodeMember :=
  mkNodeMember v (memberAddress r) (publicKey r) (isActive r) (joinedAt r)
    (lastUpdated r) (serial r) (platformVersion r) (host r) (port r).
Definition set_publicKey (v : bytes) (r : NodeMember) : NodeMember :=
  mkNodeMember (x500Name r) (memberAddress r) v (isActive r) (joinedAt r)
    (lastUpdated r) (serial r) (platformVersion r) (host r) (port r).
Definition set_isActive (v : bool) (r : NodeMember) : NodeMember :=
  mkNodeMember (x500Name r) (memberAddress r) (publicKey r) v (joinedAt r)
    (lastUpdated r) (serial r) (platformVersion r) (host r) (port r).
Definition set_lastUpdated (v : uint256) (r : NodeMember) : NodeMember :=
  mkNodeMember (x500Name r) (memberAddress r) (publicKey r) (isActive r)
    (joinedAt r) v (serial r) (platformVersion r) (host r) (port r).
Definition set_serial (v : uint256) (r : NodeMember) : NodeMember :=
  mkNodeMember (x500Name r) (memberAddress r) (publicKey r) (isActive r)
    (joinedAt r) (lastUpdated r) v (platformVersion r) (host r) (port r).
Definition set_platformVersion (v : uint16) (r : NodeMember) : NodeMember :=
  mkNodeMember (x500Name r) (memberAddress r) (publicKey r) (isActive r)
    (joinedAt r) (lastUpdated r) (serial r) v (host r) (port r).
Definition set_host (v : string) (r : NodeMember) : NodeMember :=
  mkNodeMember (x500Name r) (memberAddress r) (publicKey r) (isActive r)
    (joinedAt r) (lastUpdated r) (serial r) (platformVersion r) v (port r).
Definition set_port (v : uint16) (r : NodeMember) : NodeMember :=
  mkNodeMember (x500Name r) (memberAddress r) (publicKey r) (isActive r)
    (joinedAt r) (lastUpdated r) (serial r) (platformVersion r) (host r) v.

(** A Solidity [mapping(address => V)] is total: a key never written reads
    the zero value [d]. *)
Definition mread {V : Type} (d : V) (m : gmap address V) (a : address) : V :=
  default d (m !! a).

(** ** Transactions *)

Record Env : Type := mkEnv {
  msg_sender : address;
  block_timestamp : uint256
}.

(** Ways a call reverts: a failed [require] with its reason string, a
    compiler-inserted panic (0x11 arithmetic, 0x31 pop of an empty array,
    0x32 index out of bounds), and the two custom errors of [Ownable]. *)
Inductive Revert : Type :=
| Error (reason : string)
| Panic (code : N)
| OwnableUnauthorizedAccount (account : address)
| OwnableInvalidOwner (owner : address).

Inductive result (A : Type) : Type :=
| Ok (a : A)
| Reverted (r : Revert).
Arguments Ok {A} a.
Arguments Reverted {A} r.

(** The error kinds of the specification, and the reverts that stand for
    them in the two contracts. *)
Inductive ErrorKind : Type :=
| Unauthorized | AlreadyExists | NotFound | InvalidTarget.

Definition errorKind (r : Revert) : option ErrorKind :=
  match r with
  | Error reason =>
      if String.eqb reason "Only manager can call this function" then Some Unauthorized
      else if String.eqb reason "Member already exists" then Some AlreadyExists
      else if String.eqb reason "Member does not exist" then Some NotFound
      else if String.eqb reason "Invalid manager address" then Some InvalidTarget
      else None
  | Panic _ => None
  | OwnableUnauthorizedAccount _ => Some Unauthorized
  | OwnableInvalidOwner _ => Some InvalidTarget
  end.

Section TxMonad.
Context {St Ev : Type}.

(** A contract function: reads the call environment, transforms the
    storage, appends to the log of the running transaction, or reverts. *)
Definition M (A : Type) : Type :=
  Env -> St -> list Ev -> result (A * St * list Ev).

Definition ret {A} (a : A) : M A := fun _ s l => Ok (a, s, l).

Definition bind {A B} (m : M A) (f : A -> M B) : M B :=
  fun e s l =>
    match m e s l with
    | Ok (a, s', l') => f a e s' l'
    | Reverted r => Reverted r
    end.

Definition revert {A} (r : Revert) : M A := fun _ _ _ => Reverted r.

Definition require (cond : bool) (reason : string) : M unit :=
  if cond then ret tt else revert (Error reason).

Definition emit (ev : Ev) : M unit := fun _ s l => Ok (tt, s, l ++ [ev]).

Definition sload {A} (f : St -> A) : M A := fun _ s l => Ok (f s, s, l).

Definition sstore (f : St -> St) : M unit := fun _ s l => Ok (tt, f s, l).

Definition sender : M address := fun e s l => Ok (msg_sender e, s, l).

Definition timestamp : M uint256 := fun e s l => Ok (block_timestamp e, s, l).

(** Checked arithmetic of Solidity 0.8. *)
Definition checked_sub (a b : uint256) : M uint256 :=
  if a <? b then revert (Panic 0x11) else ret (a - b).

Definition checked_add (a b : uint256) : M uint256 :=
  if uint256_max <? a + b then revert (Panic 0x11) else ret (a + b).

(** What a transaction leaves behind. *)
Inductive Receipt : Type :=
| Success (logs : list Ev)
| Failure (r : Revert).

(** A state-changing transaction: on revert the storage is the one the
    transaction started from. *)
Definition transact (m : M unit) (e : Env) (s : St) : St * Receipt :=
  match m e s [] with
  | Ok (_, s', l) => (s', Success l)
  | Reverted r => (s, Failure r)
  end.

(** A read-only call. *)
Definition call {A} (m : M A) (e : Env) (s : St) : result A :=
  match m e s [] with
  | Ok (a, _, _) => Ok a
  | Reverted r => Reverted r
  end.

(** View functions read neither [msg.sender] nor [block.timestamp]. *)
Definition view {A} (m : M A) (s : St) : result A :=
  call m (mkEnv 0 0) s.

Definition failsWith (rc : Receipt) (k : ErrorKind) : Prop :=
  exists r, rc = Failure r /\ errorKind r = Some k.

End TxMonad.

Arguments M : clear implicits.
Arguments Receipt : clear implicits.

Notation "x <- m ; k" := (bind m (fun x => k))
  (at level 100, m at next level, right associativity).
Notation "m ;; k" := (bind m (fun _ => k))
  (at level 100, right associativity).

(** Array primitives on a [address[]] held in storage, with the compiler's
    bounds checks. *)
Definition array_pop (l : list address) : list address :=
  take (length l - 1)%nat l.

Definition array_length (l : list address) : uint256 := N.of_nat (length l).

(** ** The Ownable contract *)

Module Owned.

Record Storage : Type := mkStorage {
  owner : address;
  members : gmap address NodeMember;
  memberIndex : gmap address uint256;
  memberAddresses : list address
}.

Inductive Event : Type :=
| MemberAdded (memberAddress : address) (x500Name : string)
| MemberRemoved (memberAddress : address)
| MemberUpdated (memberAddress : address)
| OwnershipTransferred (previousOwner newOwner : address).

Definition set_owner (v : address) (s : Storage) : Storage :=
  mkStorage v (members s) (memberIndex s) (memberAddresses s).
Definition set_members (v : gmap address NodeMember) (s : Storage) : Storage :=
  mkStorage (owner s) v (memberIndex s) (memberAddresses s).
Definition set_memberIndex (v : gmap address uint256) (s : Storage) : Storage :=
  mkStorage (owner s) (members s) v (memberAddresses s).
Definition set_memberAddresses (v : list address) (s : Storage) : Storage :=
  mkStorage (owner s) (members s) (memberIndex s) v.

(** [members[a]] and [memberIndex[a]] as reads of total mappings. *)
Definition member (s : Storage) (a : address) : NodeMember :=
  mread zeroMember (members s) a.
Definition indexOf (s : Storage) (a : address) : uint256 :=
  mread 0 (memberIndex s) a.

(** [members[a].f = v] for a field setter [f]. *)
Definition update_member (a : address) (f : NodeMember -> NodeMember)
    (s : Storage) : Storage :=
  set_members (<[a := f (member s a)]> (members s)) s.

Abbreviation M := (M Storage Event).

(** Storage after [constructor() Ownable(msg.sender)]. *)
Definition constructor (deployer : address) : Storage :=
  mkStorage deployer ∅ ∅ [].

(** Modelled from the spec: the [onlyOwner] modifier is inherited from
    OpenZeppelin's [Ownable], which the contract imports and the sources do
    not include.  Section 4.3: [authorize(caller)] is true iff the caller
    equals the current authority; the facade fails with [Unauthorized]
    otherwise.  The library's revert is [OwnableUnauthorizedAccount]. *)
Definition onlyOwner : M unit :=
  caller <- sender;
  o <- sload owner;
  if bool_decide (o = caller) then ret tt
  else revert (OwnableUnauthorizedAccount caller).

(** Modelled from the spec: [transferOwnership] is inherited from [Ownable]
    and missing from the sources.  Section 4.3: a transfer fails with
    [Unauthorized] unless the caller is the current authority, fails with
    [InvalidTarget] for the null identity, otherwise replaces the authority
    and signals the change. *)
Definition transferOwnership (newOwner : address) : M unit :=
  onlyOwner;;
  (if bool_decide (newOwner = 0) then revert (OwnableInvalidOwner 0) else ret tt);;
  oldOwner <- sload owner;
  sstore (set_owner newOwner);;
  emit (OwnershipTransferred oldOwner newOwner).

Definition memberExists (memberAddress : address) : M unit :=
  m <- sload (fun s => member s memberAddress);
  require (bool_decide (NodeMember.memberAddress m ≠ 0)) "Member does not exist".

Definition memberDoesNotExist (memberAddress : address) : M unit :=
  m <- sload (fun s => member s memberAddress);
  require (bool_decide (NodeMember.memberAddress m = 0)) "Member already exists".

Definition addMember (memberAddress : address) (x500Name : string)
    (publicKey : bytes) (serial : uint256) (platformVersion : uint16)
    (host : string) (port : uint16) : M unit :=
  onlyOwner;;
  memberDoesNotExist memberAddress;;
  now <- timestamp;
  let newMember :=
    mkNodeMember x500Name memberAddress publicKey true now now
      serial platformVersion host port in
  sstore (fun s => set_members (<[memberAddress := newMember]> (members s)) s);;
  len <- sload (fun s => array_length (memberAddresses s));
  sstore (fun s => set_memberIndex (<[memberAddress := len]> (memberIndex s)) s);;
  sstore (fun s => set_memberAddresses (memberAddresses s ++ [memberAddress]) s);;
  emit (MemberAdded memberAddress x500Name).

(** [memberAddresses[i]] as an rvalue: panics out of bounds. *)
Definition array_get (i : uint256) : M address :=
  l <- sload memberAddresses;
  match l !! N.to_nat i with
  | Some a => ret a
  | None => revert (Panic 0x32)
  end.

(** [memberAddresses[i] = v]: panics out of bounds. *)
Definition array_set (i : uint256) (v : address) : M unit :=
  l <- sload memberAddresses;
  if i <? array_length l
  then sstore (set_memberAddresses (<[N.to_nat i := v]> l))
  else revert (Panic 0x32).

(** [memberAddresses.pop()]: panics on the empty array. *)
Definition pop : M unit :=
  l <- sload memberAddresses;
  if array_length l =? 0 then revert (Panic 0x31)
  else sstore (set_memberAddresses (array_pop l)).

Definition removeMember (memberAddress : address) : M unit :=
  onlyOwner;;
  memberExists memberAddress;;
  index <- sload (fun s => indexOf s memberAddress);
  len <- sload (fun s => array_length (memberAddresses s));
  lastIndex <- checked_sub len 1;
  lastMember <- array_get lastIndex;
  array_set index lastMember;;
  sstore (fun s => set_memberIndex (<[lastMember := index]> (memberIndex s)) s);;
  pop;;
  sstore (fun s => set_memberIndex (delete memberAddress (memberIndex s)) s);;
  sstore (fun s => set_members (delete memberAddress (members s)) s);;
  emit (MemberRemoved memberAddress).

Definition updateMemberStatus (memberAddress : address) (isActive : bool) : M unit :=
  onlyOwner;;
  memberExists memberAddress;;
  sstore (update_member memberAddress (set_isActive isActive));;
  now <- timestamp;
  sstore (update_member memberAddress (set_lastUpdated now));;
  emit (MemberUpdated memberAddress).

Definition updateMemberDetails (memberAddress : address) (x500Name : string)
    (publicKey : bytes) (serial : uint256) (platformVersion : uint16)
    (host : string) (port : uint16) : M unit :=
  onlyOwner;;
  memberExists memberAddress;;
  sstore (update_member memberAddress (set_x500Name x500Name));;
  sstore (update_member memberAddress (set_publicKey publicKey));;
  sstore (update_member memberAddress (set_serial serial));;
  sstore (update_member memberAddress (set_platformVersion platformVersion));;
  sstore (update_member memberAddress (set_host host));;
  sstore (update_member memberAddress (set_port port));;
  now <- timestamp;
  sstore (update_member memberAddress (set_lastUpdated now));;
  emit (MemberUpdated memberAddress).

Definition getMember (memberAddress : address) : M NodeMember :=
  memberExists memberAddress;;
  sload (fun s => member s memberAddress).

Definition getAllMembers : M (list address) := sload memberAddresses.

Definition isMember (memberAddress : address) : M bool :=
  m <- sload (fun s => member s memberAddress);
  ret (bool_decide (NodeMember.memberAddress m ≠ 0)).

(** The externally callable state-changing functions of the facade.
    ([Ownable] lets the owner also give the authority up for good; the
    specification's facade has no such operation and it touches the owner
    slot only.) *)
Inductive Call : Type :=
| AddMember (memberAddress : address) (x500Name : string) (publicKey : bytes)
    (serial : uint256) (platformVersion : uint16) (host : string) (port : uint16)
| RemoveMember (memberAddress : address)
| UpdateMemberStatus (memberAddress : address) (isActive : bool)
| UpdateMemberDetails (memberAddress : address) (x500Name : string)
    (publicKey : bytes) (serial : uint256) (platformVersion : uint16)
    (host : string) (port : uint16)
| TransferOwnership (newOwner : address).

Definition dispatch (c : Call) : M unit :=
  match c with
  | AddMember a dn pk sn pv h p => addMember a dn pk sn pv h p
  | RemoveMember a => removeMember a
  | UpdateMemberStatus a b => updateMemberStatus a b
  | UpdateMemberDetails a dn pk sn pv h p => updateMemberDetails a dn pk sn pv h p
  | TransferOwnership a => transferOwnership a
  end.

(** One mined transaction, and a sequence of them. *)
Definition step (s : Storage) (tx : Env * Call) : Storage :=
  fst (transact (dispatch (snd tx)) (fst tx) s).

Definition run (txs : list (Env * Call)) (s : Storage) : Storage :=
  fold_left step txs s.

Definition reachable (s : Storage) : Prop :=
  exists deployer txs, s = run txs (constructor deployer).

(** *** Closed forms of the successful transitions, and the invariants *)

(** The storage a successful [addMember] leaves. *)
Definition added (s : Storage) (now : uint256) (a : address) dn pk sn pv h p
    : Storage :=
  mkStorage (owner s)
    (<[a := mkNodeMember dn a pk true now now sn pv h p]> (members s))
    (<[a := array_length (memberAddresses s)]> (memberIndex s))
    (memberAddresses s ++ [a]).

(** The storage a successful [removeMember] leaves, [lastMember] being the
    address in the last slot. *)
Definition removed (s : Storage) (a lastMember : address) : Storage :=
  mkStorage (owner s)
    (delete a (members s))
    (delete a (<[lastMember := indexOf s a]> (memberIndex s)))
    (array_pop (<[N.to_nat (indexOf s a) := lastMember]> (memberAddresses s))).

(** The presence test of the two modifiers and of [isMember]. *)
Definition present (s : Storage) (a : address) : Prop :=
  memberAddress (member s a) <> 0.

(** A record is the zero record or carries its own key. *)
Definition keyed (s : Storage) : Prop :=
  forall a, memberAddress (member s a) = 0 \/ memberAddress (member s a) = a.

(** The reverse map of a member points at a slot holding that member. *)
Definition indexed (s : Storage) : Prop :=
  forall a, present s a -> memberAddresses s !! N.to_nat (indexOf s a) = Some a.

(** [wf] holds in every reachable state. *)
Definition wf (s : Storage) : Prop := keyed s /\ indexed s.

Definition preserves_member_address (f : NodeMember -> NodeMember) : Prop :=
  forall r, memberAddress (f r) = memberAddress r.

End Owned.

(** ** The manager contract *)

Module Managed.

Record Storage : Type := mkStorage {
  manager : address;
  members : gmap address NodeMember;
  memberAddresses : list address;
  memberCount : uint256
}.

Inductive Event : Type :=
| MemberAdded (nodeAddress : address) (x500Name : string)
| MemberRemoved (nodeAddress : address)
| MemberUpdated (nodeAddress : address)
| ManagerChanged (oldManager newManager : address).

Definition set_manager (v : address) (s : Storage) : Storage :=
  mkStorage v (members s) (memberAddresses s) (memberCount s).
Definition set_members (v : gmap address NodeMember) (s : Storage) : Storage :=
  mkStorage (manager s) v (memberAddresses s) (memberCount s).
Definition set_memberAddresses (v : list address) (s : Storage) : Storage :=
  mkStorage (manager s) (members s) v (memberCount s).
Definition set_memberCount (v : uint256) (s : Storage) : Storage :=
  mkStorage (manager s) (members s) (memberAddresses s) v.

Definition member (s : Storage) (a : address) : NodeMember :=
  mread zeroMember (members s) a.

Definition update_member (a : address) (f : NodeMember -> NodeMember)
    (s : Storage) : Storage :=
  set_members (<[a := f (member s a)]> (members s)) s.

Abbreviation M := (M Storage Event).

(** Storage after [constructor()]: [manager = msg.sender]. *)
Definition constructor (deployer : address) : Storage :=
  mkStorage deployer ∅ [] 0.

Definition onlyManager : M unit :=
  caller <- sender;
  mgr <- sload manager;
  require (bool_decide (caller = mgr)) "Only manager can call this function".

Definition memberExists (memberAddress : address) : M unit :=
  m <- sload (fun s => member s memberAddress);
  require (bool_decide (NodeMember.memberAddress m ≠ 0)) "Member does not exist".

Definition memberDoesNotExist (memberAddress : address) : M unit :=
  m <- sload (fun s => member s memberAddress);
  require (bool_decide (NodeMember.memberAddress m = 0)) "Member already exists".

Definition addMember (memberAddress : address) (x500Name : string)
    (publicKey : bytes) (serial : uint256) (platformVersion : uint16)
    (host : string) (port : uint16) : M unit :=
  onlyManager;;
  memberDoesNotExist memberAddress;;
  now <- timestamp;
  let newMember :=
    mkNodeMember x500Name memberAddress publicKey true now now
      serial platformVersion host port in
  sstore (fun s => set_members (<[memberAddress := newMember]> (members s)) s);;
  sstore (fun s => set_memberAddresses (memberAddresses s ++ [memberAddress]) s);;
  count <- sload memberCount;
  count' <- checked_add count 1;
  sstore (set_memberCount count');;
  emit (MemberAdded memberAddress x500Name).

(** The search loop of [removeMember]: the first position holding
    [memberAddress], scanning from position [i]; [index] stays at its
    zero default and [found] at [false] when there is none. *)
Fixpoint search (memberAddress : address) (l : list address) (i : uint256)
    : uint256 * bool :=
  match l with
  | [] => (0, false)
  | a :: l' =>
      if bool_decide (a = memberAddress) then (i, true)
      else search memberAddress l' (i + 1)
  end.

Definition array_get (i : uint256) : M address :=
  l <- sload memberAddresses;
  match l !! N.to_nat i with
  | Some a => ret a
  | None => revert (Panic 0x32)
  end.

Definition array_set (i : uint256) (v : address) : M unit :=
  l <- sload memberAddresses;
  if i <? array_length l
  then sstore (set_memberAddresses (<[N.to_nat i := v]> l))
  else revert (Panic 0x32).

Definition pop : M unit :=
  l <- sload memberAddresses;
  if array_length l =? 0 then revert (Panic 0x31)
  else sstore (set_memberAddresses (array_pop l)).

Definition removeMember (memberAddress : address) : M unit :=
  onlyManager;;
  memberExists memberAddress;;
  r <- sload (fun s => search memberAddress (memberAddresses s) 0);
  let index := fst r in
  let found := snd r in
  if found then
    len <- sload (fun s => array_length (memberAddresses s));
    lastIndex <- checked_sub len 1;
    lastMember <- array_get lastIndex;
    array_set index lastMember;;
    pop;;
    sstore (fun s => set_members (delete memberAddress (members s)) s);;
    count <- sload memberCount;
    count' <- checked_sub count 1;
    sstore (set_memberCount count');;
    emit (MemberRemoved memberAddress)
  else ret tt.

Definition updateMemberStatus (memberAddress : address) (isActive : bool) : M unit :=
  onlyManager;;
  memberExists memberAddress;;
  sstore (update_member memberAddress (set_isActive isActive));;
  now <- timestamp;
  sstore (update_member memberAddress (set_lastUpdated now));;
  emit (MemberUpdated memberAddress).

Definition updateMemberDetails (memberAddress : address) (x500Name : string)
    (publicKey : bytes) (serial : uint256) (platformVersion : uint16)
    (host : string) (port : uint16) : M unit :=
  onlyManager;;
  memberExists memberAddress;;
  sstore (update_member memberAddress (set_x500Name x500Name));;
  sstore (update_member memberAddress (set_publicKey publicKey));;
  sstore (update_member memberAddress (set_serial serial));;
  sstore (update_member memberAddress (set_platformVersion platformVersion));;
  sstore (update_member memberAddress (set_host host));;
  sstore (update_member memberAddress (set_port port));;
  now <- timestamp;
  sstore (update_member memberAddress (set_lastUpdated now));;
  emit (MemberUpdated memberAddress).

Definition transferManagerRole (newManager : address) : M unit :=
  onlyManager;;
  require (bool_decide (newManager ≠ 0)) "Invalid manager address";;
  oldManager <- sload manager;
  sstore (set_manager newManager);;
  emit (ManagerChanged oldManager newManager).

Definition getMember (memberAddress : address) : M NodeMember :=
  memberExists memberAddress;;
  sload (fun s => member s memberAddress).

Definition getAllMembers : M (list address) := sload memberAddresses.

Definition isMember (memberAddress : address) : M bool :=
  m <- sload (fun s => member s memberAddress);
  ret (bool_decide (NodeMember.memberAddress m ≠ 0)).

Definition updateSubnetMemberDetail (memberAddress : address)
    (serial : uint256) (platformVersion : uint16) (host : string)
    (port : uint16) : M unit :=
  onlyManager;;
  memberExists memberAddress;;
  sstore (update_member memberAddress (set_serial serial));;
  sstore (update_member memberAddress (set_platformVersion platformVersion));;
  sstore (update_member memberAddress (set_host host));;
  sstore (update_member memberAddress (set_port port));;
  now <- timestamp;
  sstore (update_member memberAddress (set_lastUpdated now));;
  emit (MemberUpdated memberAddress).

Inductive Call : Type :=
| AddMember (memberAddress : address) (x500Name : string) (publicKey : bytes)
    (serial : uint256) (platformVersion : uint16) (host : string) (port : uint16)
| RemoveMember (memberAddress : address)
| UpdateMemberStatus (memberAddress : address) (isActive : bool)
| UpdateMemberDetails (memberAddress : address) (x500Name : string)
    (publicKey : bytes) (serial : uint256) (platformVersion : uint16)
    (host : string) (port : uint16)
| TransferManagerRole (newManager : address)
| UpdateSubnetMemberDetail (memberAddress : address) (serial : uint256)
    (platformVersion : uint16) (host : string) (port : uint16).

Definition dispatch (c : Call) : M unit :=
  match c with
  | AddMember a dn pk sn pv h p => addMember a dn pk sn pv h p
  | RemoveMember a => removeMember a
  | UpdateMemberStatus a b => updateMemberStatus a b
  | UpdateMemberDetails a dn pk sn pv h p => updateMemberDetails a dn pk sn pv h p
  | TransferManagerRole a => transferManagerRole a
  | UpdateSubnetMemberDetail a sn pv h p => updateSubnetMemberDetail a sn pv h p
  end.

Definition step (s : Storage) (tx : Env * Call) : Storage :=
  fst (transact (dispatch (snd tx)) (fst tx) s).

Definition run (txs : list (Env * Call)) (s : Storage) : Storage :=
  fold_left step txs s.

Definition reachable (s : Storage) : Prop :=
  exists deployer txs, s = run txs (constructor deployer).

(** *** Closed forms of the successful transitions, and the invariants *)

(** The presence test of the two modifiers and of [isMember]. *)
Definition present (s : Storage) (a : address) : Prop :=
  nodeAddress (member s a) <> 0.

(** A record is the zero record or carries its own key. *)
Definition keyed (s : Storage) : Prop :=
  forall a, nodeAddress (member s a) = 0 \/ nodeAddress (member s a) = a.

(** Every member is somewhere in the array, so the search of
    [removeMember] finds it. *)
Definition enumerated (s : Storage) : Prop :=
  forall a, present s a -> a ∈ memberAddresses s.

Definition wf (s : Storage) : Prop := keyed s /\ enumerated s.

(** The storage a successful [addMember] leaves. *)
Definition added (s : Storage) (now : uint256) (a : address) dn pk sn pv h p
    : Storage :=
  mkStorage (manager s)
    (<[a := mkNodeMember dn a pk true now now sn pv h p]> (members s))
    (memberAddresses s ++ [a])
    (memberCount s + 1).

(** The storage a successful [removeMember] leaves, [index] being the slot
    the search found and [lastMember] the address in the last slot. *)
Definition removed (s : Storage) (a : address) (index : uint256)
    (lastMember : address) : Storage :=
  mkStorage (manager s)
    (delete a (members s))
    (array_pop (<[N.to_nat index := lastMember]> (memberAddresses s)))
    (memberCount s - 1).

End Managed.

(** * Vocabulary of the claims *)

(** What the index-consistency invariant asks of a storage of the Ownable
    contract: the list is exactly the set of members, has no duplicates,
    and each listed address keys a record carrying it and is found at its
    [memberIndex] slot. *)
Definition index_consistent (s : Owned.Storage) : Prop :=
  exists l, view Owned.getAllMembers s = Ok l /\
    (forall a, a ∈ l <-> view (Owned.isMember a) s = Ok true) /\
    NoDup l /\
    (forall a, a ∈ l ->
       memberAddress (Owned.member s a) = a /\
       l !! N.to_nat (Owned.indexOf s a) = Some a).

(** The six member details [addMember] takes after the address. *)
Definition Details : Type := string * bytes * uint256 * uint16 * string * uint16.

Definition owned_add (a : address) (d : Details) : Owned.Call :=
  let '(dn, pk, sn, pv, h, p) := d in Owned.AddMember a dn pk sn pv h p.

Definition managed_add (a : address) (d : Details) : Managed.Call :=
  let '(dn, pk, sn, pv, h, p) := d in Managed.AddMember a dn pk sn pv h p.

Definition node1 : Details := ("CN=Node1", [17], 1001, 1, "h1", 30303).

Definition node2 : Details := ("CN=Node2", [34], 1002, 1, "h2", 30304).

Definition node3 : Details := ("CN=Node3", [51], 1003, 1, "h3", 30305).

(** The events a transaction leaves in the log. *)
Definition emitted {Ev} (rc : Receipt Ev) : list Ev :=
  match rc with
  | Success logs => logs
  | Failure _ => []
  end.

(** The single event each function emits on success. *)
Definition owned_audit_event (s : Owned.Storage) (c : Owned.Call) : Owned.Event :=
  match c with
  | Owned.AddMember a dn _ _ _ _ _ => Owned.MemberAdded a dn
  | Owned.RemoveMember a => Owned.MemberRemoved a
  | Owned.UpdateMemberStatus a _ => Owned.MemberUpdated a
  | Owned.UpdateMemberDetails a _ _ _ _ _ _ => Owned.MemberUpdated a
  | Owned.TransferOwnership newOwner => Owned.OwnershipTransferred (Owned.owner s) newOwner
  end.

Definition managed_audit_event (s : Managed.Storage) (c : Managed.Call) : Managed.Event :=
  match c with
  | Managed.AddMember a dn _ _ _ _ _ => Managed.MemberAdded a dn
  | Managed.RemoveMember a => Managed.MemberRemoved a
  | Managed.UpdateMemberStatus a _ => Managed.MemberUpdated a
  | Managed.UpdateMemberDetails a _ _ _ _ _ _ => Managed.MemberUpdated a
  | Managed.TransferManagerRole newManager =>
      Managed.ManagerChanged (Managed.manager s) newManager
  | Managed.UpdateSubnetMemberDetail a _ _ _ _ => Managed.MemberUpdated a
  end.

(** The [updateSubnetMemberDetail] command of the interaction script, run
    against the Ownable contract, which has no such function.  The script
    first reads the current record with [getMember], a call answered from
    the storage [atRead] of that moment; it then sends [updateMemberDetails]
    with the name and key it has read and the new network details, a
    transaction mined later, in environment [e] on the storage [s] that
    other transactions may have produced in between.  When the read
    reverts the script stops and sends nothing. *)
Definition updateSubnetMemberDetail_command (a : address) (sn : uint256) (pv : uint16)
    (h : string) (p : uint16) (atRead : Owned.Storage) (e : Env) (s : Owned.Storage)
    : Owned.Storage * Receipt Owned.Event :=
  match view (Owned.getMember a) atRead with
  | Ok currentMember =>
      transact (Owned.updateMemberDetails a (x500Name currentMember)
                  (publicKey currentMember) sn pv h p) e s
  | Reverted r => (s, Failure r)
  end.

(** * Vocabulary of the further properties *)

(** Every nonzero listed address is a member. *)
Definition owned_members_listed (s : Owned.Storage) : Prop :=
  forall a, a ∈ Owned.memberAddresses s -> a <> 0 -> Owned.present s a.

(** What every reachable storage of the Ownable contract satisfies, zero
    entries included. *)
Definition owned_general (s : Owned.Storage) : Prop :=
  Owned.wf s /\ owned_members_listed s /\
  NoDup (filter (fun a => a <> 0) (Owned.memberAddresses s)).

(** Index consistency with the zero address set aside: the members are the
    nonzero listed addresses, which do not repeat, and each member's record
    and reverse-map slot are its own. *)
Definition owned_consistent_up_to_zero (s : Owned.Storage) : Prop :=
  (forall a, view (Owned.isMember a) s = Ok true <->
             a <> 0 /\ a ∈ Owned.memberAddresses s) /\
  NoDup (filter (fun a => a <> 0) (Owned.memberAddresses s)) /\
  (forall a, view (Owned.isMember a) s = Ok true ->
     memberAddress (Owned.member s a) = a /\
     Owned.memberAddresses s !! N.to_nat (Owned.indexOf s a) = Some a).

(** Timestamps of a history never decrease, starting from [t]. *)
Fixpoint owned_chronological (t : uint256) (txs : list (Env * Owned.Call)) : Prop :=
  match txs with
  | [] => True
  | tx :: txs' =>
      t <= block_timestamp (fst tx) /\
      owned_chronological (block_timestamp (fst tx)) txs'
  end.

(** Every member's timestamps are ordered and not later than [t]. *)
Definition owned_stamped (t : uint256) (s : Owned.Storage) : Prop :=
  forall a, Owned.present s a ->
    joinedAt (Owned.member s a) <= lastUpdated (Owned.member s a) /\
    lastUpdated (Owned.member s a) <= t.

(** The owner [d] adding the listed members one after the other. *)
Definition owned_adds (d : address) (items : list (uint256 * address * Details))
    : list (Env * Owned.Call) :=
  map (fun item => (mkEnv d (fst (fst item)), owned_add (snd (fst item)) (snd item)))
    items.

(** What every reachable storage of the manager contract satisfies. *)
Definition managed_general (s : Managed.Storage) : Prop :=
  Managed.wf s /\
  (Managed.memberCount s = array_length (Managed.memberAddresses s) /\
   Managed.memberCount s <= uint256_max) /\
  (forall a, a ∈ Managed.memberAddresses s -> a <> 0 -> Managed.present s a) /\
  NoDup (filter (fun a => a <> 0) (Managed.memberAddresses s)).

(** The same for what the views and the counter of the manager contract
    show. *)
Definition managed_consistent_up_to_zero (s : Managed.Storage) : Prop :=
  (forall a, view (Managed.isMember a) s = Ok true <->
             a <> 0 /\ a ∈ Managed.memberAddresses s) /\
  NoDup (filter (fun a => a <> 0) (Managed.memberAddresses s)) /\
  Managed.memberCount s = array_length (Managed.memberAddresses s).

(** The manager [d] adding the listed members one after the other. *)
Definition managed_adds (d : address) (items : list (uint256 * address * Details))
    : list (Env * Managed.Call) :=
  map (fun item => (mkEnv d (fst (fst item)), managed_add (snd (fst item)) (snd item)))
    items.

(** Two short histories, each with an ordinary member before and after an
    add of the zero address. *)
Definition history1 : list (Env * Owned.Call) :=
  [(mkEnv 9 100, owned_add 1 node1); (mkEnv 9 101, owned_add 0 node2);
   (mkEnv 9 102, owned_add 2 node3)].

Definition managed_history1 : list (Env * Managed.Call) :=
  [(mkEnv 9 100, managed_add 1 node1); (mkEnv 9 101, managed_add 0 node2);
   (mkEnv 9 102, managed_add 2 node3)].

(** * Facts about the embedding *)

Ltac tx_unfold :=
  unfold view; unfold call, transact, require, checked_sub, checked_add, bind,
    sender, sload, sstore, timestamp, emit, ret, revert; cbv beta.

Ltac setter_ok := intros []; reflexivity.

(** Closed decidable side conditions, by evaluation. *)
Ltac by_compute := apply (bool_decide_unpack _); vm_compute; exact I.

(** *** Swap with the last slot, then truncate *)

Section SwapPop.
Context (l : list address) (i : nat) (m lastMember : address).
Hypothesis Hi : l !! i = Some m.
Hypothesis Hlast : l !! (length l - 1)%nat = Some lastMember.

Let l' := array_pop (<[i := lastMember]> l).

Lemma swap_pop_lookup k x :
  l' !! k = Some x <->
  (k < length l - 1)%nat /\
  ((k = i /\ x = lastMember) \/ (k <> i /\ l !! k = Some x)).
Proof.
  subst l'. unfold array_pop. rewrite length_insert, lookup_take_Some.
  rewrite list_lookup_insert_Some.
  apply lookup_lt_Some in Hi. split.
  - intros [[(-> & -> & _)|[? ?]] ?]; split; auto.
  - intros [? [[-> ->]|[? ?]]]; split; auto.
Qed.

Lemma swap_pop_length : length l' = (length l - 1)%nat.
Proof.
  subst l'. unfold array_pop. rewrite length_take, !length_insert. lia.
Qed.

Lemma swap_pop_elem x : x ∈ l' -> x ∈ l.
Proof.
  intros [k Hk]%list_elem_of_lookup_1. apply swap_pop_lookup in Hk.
  destruct Hk as [_ [[_ ->]|[_ Hk]]]; eapply list_elem_of_lookup_2; eauto.
Qed.

Lemma swap_pop_keeps x : x ∈ l -> x <> m -> x ∈ l'.
Proof.
  intros [k Hk]%list_elem_of_lookup_1 Hne.
  assert (Hki : k <> i) by (intros ->; congruence).
  pose proof (lookup_lt_Some _ _ _ Hk) as Hlt.
  destruct (decide (k = length l - 1)%nat) as [->|Hkn].
  - assert (x = lastMember) as -> by congruence.
    apply (list_elem_of_lookup_2 _ i). apply swap_pop_lookup.
    apply lookup_lt_Some in Hi. split; [lia|]. by left.
  - apply (list_elem_of_lookup_2 _ k). apply swap_pop_lookup.
    split; [lia|]. by right.
Qed.

Lemma swap_pop_NoDup : NoDup l -> NoDup l' /\ m ∉ l'.
Proof.
  intros Hnd. rewrite NoDup_alt in Hnd. split.
  - apply NoDup_alt. intros k1 k2 x H1 H2.
    apply swap_pop_lookup in H1, H2.
    destruct H1 as [Hlt1 [[-> ->]|[Hn1 H1]]], H2 as [Hlt2 [[-> E2]|[Hn2 H2]]];
      try done.
    + pose proof (Hnd _ _ _ H2 Hlast). lia.
    + subst x. pose proof (Hnd _ _ _ H1 Hlast). lia.
    + by apply (Hnd _ _ x).
  - intros [k Hk]%list_elem_of_lookup_1. apply swap_pop_lookup in Hk.
    destruct Hk as [Hlt [[-> ->]|[Hn Hk]]].
    + pose proof (Hnd _ _ _ Hi Hlast). lia.
    + by apply Hn, (Hnd _ _ m).
Qed.
End SwapPop.

Module OwnedFacts.
Import Owned.

Lemma owned_member_update_member s a f b :
  member (update_member a f s) b = if decide (a = b) then f (member s a) else member s b.
Proof.
  unfold member, update_member, mread; simpl.
  rewrite lookup_insert. destruct (decide (a = b)); reflexivity.
Qed.

Lemma owned_addMember_eq e s a dn pk sn pv h p :
  transact (addMember a dn pk sn pv h p) e s =
  if bool_decide (owner s = msg_sender e) then
    if bool_decide (memberAddress (member s a) = 0)
    then (added s (block_timestamp e) a dn pk sn pv h p, Success [MemberAdded a dn])
    else (s, Failure (Error "Member already exists"))
  else (s, Failure (OwnableUnauthorizedAccount (msg_sender e))).
Proof.
  tx_unfold. unfold addMember, onlyOwner, memberDoesNotExist. tx_unfold.
  repeat case_bool_decide; reflexivity.
Qed.

Lemma owned_removeMember_eq e s a :
  transact (removeMember a) e s =
  if bool_decide (owner s = msg_sender e) then
    if bool_decide (memberAddress (member s a) <> 0) then
      match memberAddresses s !! (length (memberAddresses s) - 1)%nat with
      | Some lastMember =>
          if indexOf s a <? array_length (memberAddresses s)
          then (removed s a lastMember, Success [MemberRemoved a])
          else (s, Failure (Panic 0x32))
      | None => (s, Failure (Panic 0x11))
      end
    else (s, Failure (Error "Member does not exist"))
  else (s, Failure (OwnableUnauthorizedAccount (msg_sender e))).
Proof.
  unfold removeMember, onlyOwner, memberExists, array_get, array_set, pop. tx_unfold.
  case_bool_decide; [|reflexivity].
  case_bool_decide; [|reflexivity]. simpl.
  unfold array_length.
  destruct (N.ltb_spec (N.of_nat (length (memberAddresses s))) 1) as [Hlen|Hlen]; simpl.
  { destruct (memberAddresses s); [reflexivity | simpl in Hlen; lia]. }
  replace (N.to_nat (N.of_nat (length (memberAddresses s)) - 1))
    with (length (memberAddresses s) - 1)%nat by lia.
  destruct (memberAddresses s !! (length (memberAddresses s) - 1)%nat)
    as [lastMember|] eqn:Hl; simpl.
  2:{ apply lookup_ge_None in Hl. lia. }
  destruct (N.ltb_spec (indexOf s a) (N.of_nat (length (memberAddresses s))));
    simpl; [|reflexivity].
  rewrite length_insert.
  destruct (N.eqb_spec (N.of_nat (length (memberAddresses s))) 0); [lia|].
  reflexivity.
Qed.

Lemma owned_removeMember_cases e s a :
  (exists r, transact (removeMember a) e s = (s, Failure r)) \/
  (owner s = msg_sender e /\ memberAddress (member s a) <> 0 /\
   exists lastMember,
     memberAddresses s !! (length (memberAddresses s) - 1)%nat = Some lastMember /\
     (N.to_nat (indexOf s a) < length (memberAddresses s))%nat /\
     transact (removeMember a) e s = (removed s a lastMember, Success [MemberRemoved a])).
Proof.
  rewrite owned_removeMember_eq.
  case_bool_decide; [|eauto].
  case_bool_decide; [|eauto].
  destruct (memberAddresses s !! (length (memberAddresses s) - 1)%nat)
    as [lastMember|] eqn:Hl; [|eauto].
  unfold array_length.
  destruct (N.ltb_spec (indexOf s a) (N.of_nat (length (memberAddresses s)))); [|eauto].
  right. repeat split; try done. exists lastMember. repeat split; try done. lia.
Qed.

Lemma owned_updateMemberStatus_eq e s a b :
  transact (updateMemberStatus a b) e s =
  if bool_decide (owner s = msg_sender e) then
    if bool_decide (memberAddress (member s a) <> 0)
    then (update_member a (set_lastUpdated (block_timestamp e))
            (update_member a (set_isActive b) s), Success [MemberUpdated a])
    else (s, Failure (Error "Member does not exist"))
  else (s, Failure (OwnableUnauthorizedAccount (msg_sender e))).
Proof.
  tx_unfold. unfold updateMemberStatus, onlyOwner, memberExists. tx_unfold.
  repeat case_bool_decide; reflexivity.
Qed.

Lemma owned_updateMemberDetails_eq e s a dn pk sn pv h p :
  transact (updateMemberDetails a dn pk sn pv h p) e s =
  if bool_decide (owner s = msg_sender e) then
    if bool_decide (memberAddress (member s a) <> 0)
    then (update_member a (set_lastUpdated (block_timestamp e))
            (update_member a (set_port p)
            (update_member a (set_host h)
            (update_member a (set_platformVersion pv)
            (update_member a (set_serial sn)
            (update_member a (set_publicKey pk)
            (update_member a (set_x500Name dn) s)))))), Success [MemberUpdated a])
    else (s, Failure (Error "Member does not exist"))
  else (s, Failure (OwnableUnauthorizedAccount (msg_sender e))).
Proof.
  tx_unfold. unfold updateMemberDetails, onlyOwner, memberExists. tx_unfold.
  repeat case_bool_decide; reflexivity.
Qed.

Lemma owned_transferOwnership_eq e s newOwner :
  transact (transferOwnership newOwner) e s =
  if bool_decide (owner s = msg_sender e) then
    if bool_decide (newOwner = 0)
    then (s, Failure (OwnableInvalidOwner 0))
    else (set_owner newOwner s, Success [OwnershipTransferred (owner s) newOwner])
  else (s, Failure (OwnableUnauthorizedAccount (msg_sender e))).
Proof.
  tx_unfold. unfold transferOwnership, onlyOwner. tx_unfold.
  repeat case_bool_decide; reflexivity.
Qed.

Lemma owned_removeMember_unauthorized e s a :
  owner s <> msg_sender e ->
  transact (removeMember a) e s = (s, Failure (OwnableUnauthorizedAccount (msg_sender e))).
Proof.
  intros H. tx_unfold. unfold removeMember, onlyOwner. tx_unfold.
  rewrite bool_decide_false by done. reflexivity.
Qed.

Lemma owned_removeMember_absent e s a :
  owner s = msg_sender e -> memberAddress (member s a) = 0 ->
  transact (removeMember a) e s = (s, Failure (Error "Member does not exist")).
Proof.
  intros H H0. tx_unfold. unfold removeMember, onlyOwner, memberExists. tx_unfold.
  rewrite bool_decide_true by done. rewrite bool_decide_false by (intros ?; done).
  reflexivity.
Qed.

(** *** Preservation of the well-formedness invariants *)

Lemma owned_wf_constructor d : wf (constructor d).
Proof.
  split; intros a; unfold present, member, mread; simpl; rewrite lookup_empty; simpl; auto.
  intros []; reflexivity.
Qed.

Lemma owned_keyed_not_present_zero s : keyed s -> ~ present s 0.
Proof. intros Hk Hp. destruct (Hk 0) as [H|H]; apply Hp; exact H. Qed.

Lemma owned_keyed_present_nonzero s a : keyed s -> present s a -> a <> 0.
Proof. intros Hk Hp ->. by apply (owned_keyed_not_present_zero s). Qed.

Lemma owned_member_added s now a dn pk sn pv h p b :
  member (added s now a dn pk sn pv h p) b =
  if decide (a = b) then mkNodeMember dn a pk true now now sn pv h p else member s b.
Proof.
  unfold member, added, mread; simpl. rewrite lookup_insert.
  destruct (decide (a = b)); reflexivity.
Qed.

Lemma owned_indexOf_added s now a dn pk sn pv h p b :
  indexOf (added s now a dn pk sn pv h p) b =
  if decide (a = b) then array_length (memberAddresses s) else indexOf s b.
Proof.
  unfold indexOf, added, mread; simpl. rewrite lookup_insert.
  destruct (decide (a = b)); reflexivity.
Qed.

Lemma owned_wf_added s now a dn pk sn pv h p :
  wf s -> ~ present s a -> wf (added s now a dn pk sn pv h p).
Proof.
  intros [Hk Hi] Ha. split.
  - intros b. rewrite owned_member_added. destruct (decide (a = b)); simpl; auto.
  - intros b. unfold present. rewrite owned_member_added, owned_indexOf_added.
    destruct (decide (a = b)) as [->|Hne]; simpl; intros Hb.
    + unfold array_length. rewrite Nat2N.id.
      rewrite lookup_app_r by lia. by rewrite Nat.sub_diag.
    + apply lookup_app_l_Some. by apply Hi.
Qed.


Lemma owned_member_removed s a lastMember b :
  member (removed s a lastMember) b = if decide (a = b) then zeroMember else member s b.
Proof.
  unfold member, removed, mread; simpl. rewrite lookup_delete.
  destruct (decide (a = b)); reflexivity.
Qed.

Lemma owned_indexOf_removed s a lastMember b :
  indexOf (removed s a lastMember) b =
  if decide (a = b) then 0
  else if decide (lastMember = b) then indexOf s a else indexOf s b.
Proof.
  unfold indexOf at 1, removed, mread; simpl. rewrite lookup_delete.
  destruct (decide (a = b)); [reflexivity|]. rewrite lookup_insert.
  destruct (decide (lastMember = b)); reflexivity.
Qed.

Lemma owned_wf_removed s a lastMember :
  wf s -> present s a ->
  memberAddresses s !! (length (memberAddresses s) - 1)%nat = Some lastMember ->
  wf (removed s a lastMember).
Proof.
  intros [Hk Hi] Ha Hlast. pose proof (Hi a Ha) as Hia. split.
  - intros b. rewrite owned_member_removed. destruct (decide (a = b)); simpl; auto.
  - intros b. unfold present. rewrite owned_member_removed, owned_indexOf_removed.
    destruct (decide (a = b)) as [->|Hne]; simpl; [done|]. intros Hb.
    pose proof (Hi b Hb) as Hib.
    apply (swap_pop_lookup _ _ a lastMember Hia Hlast).
    pose proof (lookup_lt_Some _ _ _ Hia). pose proof (lookup_lt_Some _ _ _ Hib).
    destruct (decide (lastMember = b)) as [->|Hlb].
    + split; [|by left].
      destruct (decide (N.to_nat (indexOf s a) = length (memberAddresses s) - 1)%nat)
        as [E|]; [|lia].
      rewrite E in Hia. congruence.
    + assert (N.to_nat (indexOf s b) <> N.to_nat (indexOf s a))
        by (intros E; rewrite E in Hib; congruence).
      split; [|by right].
      destruct (decide (N.to_nat (indexOf s b) = length (memberAddresses s) - 1)%nat)
        as [E|]; [|lia].
      rewrite E in Hib. congruence.
Qed.

Lemma owned_zero_stays_removed s a lastMember :
  wf s -> present s a ->
  memberAddresses s !! (length (memberAddresses s) - 1)%nat = Some lastMember ->
  0 ∈ memberAddresses s -> 0 ∈ memberAddresses (removed s a lastMember).
Proof.
  intros [Hk Hi] Ha Hlast Hz. simpl.
  apply (swap_pop_keeps _ _ a lastMember (Hi a Ha) Hlast); [done|].
  intros E. by apply (owned_keyed_present_nonzero s a).
Qed.

Lemma owned_step_addMember e s a dn pk sn pv h p :
  owner s = msg_sender e -> memberAddress (member s a) = 0 ->
  step s (e, AddMember a dn pk sn pv h p) = added s (block_timestamp e) a dn pk sn pv h p.
Proof.
  intros Ho Ha. unfold step; simpl. rewrite owned_addMember_eq.
  by rewrite !bool_decide_true.
Qed.

Lemma owned_step_removeMember e s a lastMember :
  owner s = msg_sender e -> memberAddress (member s a) <> 0 ->
  memberAddresses s !! (length (memberAddresses s) - 1)%nat = Some lastMember ->
  indexOf s a < array_length (memberAddresses s) ->
  step s (e, RemoveMember a) = removed s a lastMember.
Proof.
  intros Ho Ha Hl Hi. unfold step; simpl. rewrite owned_removeMember_eq.
  rewrite !bool_decide_true, Hl by done.
  apply N.ltb_lt in Hi. by rewrite Hi.
Qed.

Lemma owned_wf_update_member s a f :
  preserves_member_address f -> wf s -> wf (update_member a f s).
Proof.
  intros Hf [Hk Hi]. split.
  - intros b. rewrite owned_member_update_member.
    destruct (decide (a = b)) as [->|]; [rewrite Hf|]; apply Hk.
  - intros b. unfold present. rewrite owned_member_update_member.
    destruct (decide (a = b)) as [->|]; [rewrite Hf|]; apply Hi.
Qed.

Lemma owned_wf_set_owner s o : wf s -> wf (set_owner o s).
Proof. intros H; exact H. Qed.

Lemma owned_wf_step s tx : wf s -> wf (step s tx).
Proof.
  intros Hwf. destruct tx as [e c]. unfold step; simpl.
  destruct c as [a dn pk sn pv h p|a|a b|a dn pk sn pv h p|a]; simpl.
  - rewrite owned_addMember_eq. repeat case_bool_decide; simpl; try done.
    apply owned_wf_added; [done|]. unfold present. tauto.
  - destruct (owned_removeMember_cases e s a) as [[r ->]|(_ & Hp & lm & Hl & _ & ->)];
      simpl; [done|]. by apply owned_wf_removed.
  - rewrite owned_updateMemberStatus_eq. repeat case_bool_decide; simpl; try done.
    repeat apply owned_wf_update_member; try done; setter_ok.
  - rewrite owned_updateMemberDetails_eq. repeat case_bool_decide; simpl; try done.
    repeat apply owned_wf_update_member; try done; setter_ok.
  - rewrite owned_transferOwnership_eq. repeat case_bool_decide; simpl; done.
Qed.

Lemma owned_zero_stays_step s tx :
  wf s -> 0 ∈ memberAddresses s -> 0 ∈ memberAddresses (step s tx).
Proof.
  intros Hwf Hz. destruct tx as [e c]. unfold step; simpl.
  destruct c as [a dn pk sn pv h p|a|a b|a dn pk sn pv h p|a]; simpl.
  - rewrite owned_addMember_eq. repeat case_bool_decide; simpl; try done.
    apply elem_of_app. by left.
  - destruct (owned_removeMember_cases e s a) as [[r ->]|(_ & Hp & lm & Hl & _ & ->)];
      simpl; [done|]. by apply owned_zero_stays_removed.
  - rewrite owned_updateMemberStatus_eq. repeat case_bool_decide; simpl; done.
  - rewrite owned_updateMemberDetails_eq. repeat case_bool_decide; simpl; done.
  - rewrite owned_transferOwnership_eq. repeat case_bool_decide; simpl; done.
Qed.

Lemma owned_run_snoc txs tx s : run (txs ++ [tx]) s = step (run txs s) tx.
Proof. unfold run. by rewrite fold_left_app. Qed.

Lemma owned_wf_run txs s : wf s -> wf (run txs s).
Proof.
  revert s. induction txs as [|tx txs IH]; intros s Hs; [done|].
  simpl. apply IH. by apply owned_wf_step.
Qed.

Lemma owned_zero_stays_run txs s :
  wf s -> 0 ∈ memberAddresses s -> 0 ∈ memberAddresses (run txs s).
Proof.
  revert s. induction txs as [|tx txs IH]; intros s Hs Hz; [done|].
  simpl. apply IH; [by apply owned_wf_step | by apply owned_zero_stays_step].
Qed.

Lemma owned_wf_reachable s : reachable s -> wf s.
Proof. intros (d & txs & ->). apply owned_wf_run, owned_wf_constructor. Qed.

Lemma owned_isMember_view s a :
  view (isMember a) s = Ok (bool_decide (memberAddress (member s a) <> 0)).
Proof. reflexivity. Qed.

Lemma owned_getAllMembers_view s : view getAllMembers s = Ok (memberAddresses s).
Proof. reflexivity. Qed.

Lemma owned_getMember_view s a :
  view (getMember a) s =
  if bool_decide (memberAddress (member s a) <> 0) then Ok (member s a)
  else Reverted (Error "Member does not exist").
Proof.
  unfold getMember, memberExists. tx_unfold.
  case_bool_decide; reflexivity.
Qed.

Lemma owned_dispatch_unauthorized e s c :
  owner s <> msg_sender e ->
  transact (dispatch c) e s = (s, Failure (OwnableUnauthorizedAccount (msg_sender e))).
Proof.
  intros H. destruct c as [a dn pk sn pv h p|a|a b|a dn pk sn pv h p|a]; simpl.
  - rewrite owned_addMember_eq. by rewrite bool_decide_false.
  - by apply owned_removeMember_unauthorized.
  - rewrite owned_updateMemberStatus_eq. by rewrite bool_decide_false.
  - rewrite owned_updateMemberDetails_eq. by rewrite bool_decide_false.
  - rewrite owned_transferOwnership_eq. by rewrite bool_decide_false.
Qed.

End OwnedFacts.

Module ManagedFacts.
Import Managed.

Lemma managed_member_update_member s a f b :
  member (update_member a f s) b = if decide (a = b) then f (member s a) else member s b.
Proof.
  unfold member, update_member, mread; simpl.
  rewrite lookup_insert. destruct (decide (a = b)); reflexivity.
Qed.

Lemma managed_search_spec m l i :
  match search m l i with
  | (index, true) => exists k, index = i + N.of_nat k /\ l !! k = Some m
  | (index, false) => index = 0 /\ m ∉ l
  end.
Proof.
  revert i. induction l as [|a l IH]; intros i; simpl.
  - split; [done|]. apply not_elem_of_nil.
  - case_bool_decide as Ha.
    + exists 0%nat. subst. split; [lia|done].
    + specialize (IH (i + 1)). destruct (search m l (i + 1)) as [index [|]].
      * destruct IH as (k & -> & Hk). exists (S k). split; [lia|done].
      * destruct IH as [-> Hn]. split; [done|].
        rewrite elem_of_cons. intros [->|?]; done.
Qed.

Lemma managed_addMember_eq e s a dn pk sn pv h p :
  transact (addMember a dn pk sn pv h p) e s =
  if bool_decide (msg_sender e = manager s) then
    if bool_decide (nodeAddress (member s a) = 0) then
      if uint256_max <? memberCount s + 1 then (s, Failure (Panic 0x11))
      else (added s (block_timestamp e) a dn pk sn pv h p, Success [MemberAdded a dn])
    else (s, Failure (Error "Member already exists"))
  else (s, Failure (Error "Only manager can call this function")).
Proof.
  tx_unfold. unfold addMember, onlyManager, memberDoesNotExist. tx_unfold.
  repeat case_bool_decide; try reflexivity. simpl.
  destruct (uint256_max <? memberCount s + 1); reflexivity.
Qed.

Lemma managed_removeMember_unauthorized e s a :
  msg_sender e <> manager s ->
  transact (removeMember a) e s = (s, Failure (Error "Only manager can call this function")).
Proof.
  intros H. tx_unfold. unfold removeMember, onlyManager. tx_unfold.
  rewrite bool_decide_false by done. reflexivity.
Qed.

Lemma managed_removeMember_absent e s a :
  msg_sender e = manager s -> nodeAddress (member s a) = 0 ->
  transact (removeMember a) e s = (s, Failure (Error "Member does not exist")).
Proof.
  intros H H0. tx_unfold. unfold removeMember, onlyManager, memberExists. tx_unfold.
  rewrite bool_decide_true by done. rewrite bool_decide_false by (intros ?; done).
  reflexivity.
Qed.

Lemma managed_removeMember_eq e s a :
  transact (removeMember a) e s =
  if bool_decide (msg_sender e = manager s) then
    if bool_decide (nodeAddress (member s a) <> 0) then
      match search a (memberAddresses s) 0 with
      | (index, true) =>
          match memberAddresses s !! (length (memberAddresses s) - 1)%nat with
          | Some lastMember =>
              if index <? array_length (memberAddresses s) then
                if memberCount s <? 1 then (s, Failure (Panic 0x11))
                else (removed s a index lastMember, Success [MemberRemoved a])
              else (s, Failure (Panic 0x32))
          | None => (s, Failure (Panic 0x11))
          end
      | (_, false) => (s, Success [])
      end
    else (s, Failure (Error "Member does not exist"))
  else (s, Failure (Error "Only manager can call this function")).
Proof.
  unfold removeMember, onlyManager, memberExists, array_get, array_set, pop. tx_unfold.
  case_bool_decide; [|reflexivity].
  case_bool_decide; [|reflexivity]. simpl.
  destruct (search a (memberAddresses s) 0) as [index [|]]; simpl; [|reflexivity].
  unfold array_length.
  destruct (N.ltb_spec (N.of_nat (length (memberAddresses s))) 1) as [Hlen|Hlen]; simpl.
  { destruct (memberAddresses s); [reflexivity | simpl in Hlen; lia]. }
  replace (N.to_nat (N.of_nat (length (memberAddresses s)) - 1))
    with (length (memberAddresses s) - 1)%nat by lia.
  destruct (memberAddresses s !! (length (memberAddresses s) - 1)%nat)
    as [lastMember|] eqn:Hl; simpl.
  2:{ apply lookup_ge_None in Hl. lia. }
  destruct (N.ltb_spec index (N.of_nat (length (memberAddresses s))));
    simpl; [|reflexivity].
  rewrite length_insert.
  destruct (N.eqb_spec (N.of_nat (length (memberAddresses s))) 0); [lia|]. simpl.
  destruct (N.ltb_spec (memberCount s) 1); reflexivity.
Qed.

(** What [removeMember] can do: revert, return without effect when the
    search finds nothing, or swap, truncate and delete. *)
Lemma managed_removeMember_cases e s a :
  (exists r, transact (removeMember a) e s = (s, Failure r)) \/
  (msg_sender e = manager s /\ nodeAddress (member s a) <> 0 /\ (a ∉ memberAddresses s) /\
   transact (removeMember a) e s = (s, Success [])) \/
  (msg_sender e = manager s /\ nodeAddress (member s a) <> 0 /\
   exists k lastMember,
     memberAddresses s !! k = Some a /\
     memberAddresses s !! (length (memberAddresses s) - 1)%nat = Some lastMember /\
     transact (removeMember a) e s =
       (removed s a (N.of_nat k) lastMember, Success [MemberRemoved a])).
Proof.
  rewrite managed_removeMember_eq.
  case_bool_decide; [|eauto].
  case_bool_decide; [|eauto].
  pose proof (managed_search_spec a (memberAddresses s) 0) as Hs.
  destruct (search a (memberAddresses s) 0) as [index [|]].
  2:{ destruct Hs as [_ Hn]. right; left. done. }
  destruct Hs as (k & -> & Hk). rewrite N.add_0_l.
  destruct (memberAddresses s !! (length (memberAddresses s) - 1)%nat)
    as [lastMember|] eqn:Hl; [|eauto].
  destruct (N.of_nat k <? array_length (memberAddresses s)); [|eauto].
  destruct (memberCount s <? 1); [eauto|].
  right; right. repeat split; try done. exists k, lastMember. done.
Qed.

Lemma managed_updateMemberStatus_eq e s a b :
  transact (updateMemberStatus a b) e s =
  if bool_decide (msg_sender e = manager s) then
    if bool_decide (nodeAddress (member s a) <> 0)
    then (update_member a (set_lastUpdated (block_timestamp e))
            (update_member a (set_isActive b) s), Success [MemberUpdated a])
    else (s, Failure (Error "Member does not exist"))
  else (s, Failure (Error "Only manager can call this function")).
Proof.
  tx_unfold. unfold updateMemberStatus, onlyManager, memberExists. tx_unfold.
  repeat case_bool_decide; reflexivity.
Qed.

Lemma managed_updateMemberDetails_eq e s a dn pk sn pv h p :
  transact (updateMemberDetails a dn pk sn pv h p) e s =
  if bool_decide (msg_sender e = manager s) then
    if bool_decide (nodeAddress (member s a) <> 0)
    then (update_member a (set_lastUpdated (block_timestamp e))
            (update_member a (set_port p)
            (update_member a (set_host h)
            (update_member a (set_platformVersion pv)
            (update_member a (set_serial sn)
            (update_member a (set_publicKey pk)
            (update_member a (set_x500Name dn) s)))))), Success [MemberUpdated a])
    else (s, Failure (Error "Member does not exist"))
  else (s, Failure (Error "Only manager can call this function")).
Proof.
  tx_unfold. unfold updateMemberDetails, onlyManager, memberExists. tx_unfold.
  repeat case_bool_decide; reflexivity.
Qed.

Lemma managed_updateSubnetMemberDetail_eq e s a sn pv h p :
  transact (updateSubnetMemberDetail a sn pv h p) e s =
  if bool_decide (msg_sender e = manager s) then
    if bool_decide (nodeAddress (member s a) <> 0)
    then (update_member a (set_lastUpdated (block_timestamp e))
            (update_member a (set_port p)
            (update_member a (set_host h)
            (update_member a (set_platformVersion pv)
            (update_member a (set_serial sn) s)))), Success [MemberUpdated a])
    else (s, Failure (Error "Member does not exist"))
  else (s, Failure (Error "Only manager can call this function")).
Proof.
  tx_unfold. unfold updateSubnetMemberDetail, onlyManager, memberExists. tx_unfold.
  repeat case_bool_decide; reflexivity.
Qed.

Lemma managed_transferManagerRole_eq e s newManager :
  transact (transferManagerRole newManager) e s =
  if bool_decide (msg_sender e = manager s) then
    if bool_decide (newManager <> 0)
    then (set_manager newManager s, Success [ManagerChanged (manager s) newManager])
    else (s, Failure (Error "Invalid manager address"))
  else (s, Failure (Error "Only manager can call this function")).
Proof.
  tx_unfold. unfold transferManagerRole, onlyManager. tx_unfold.
  repeat case_bool_decide; reflexivity.
Qed.

Lemma managed_isMember_view s a :
  view (isMember a) s = Ok (bool_decide (nodeAddress (member s a) <> 0)).
Proof. reflexivity. Qed.

Lemma managed_getAllMembers_view s : view getAllMembers s = Ok (memberAddresses s).
Proof. reflexivity. Qed.

Lemma managed_getMember_view s a :
  view (getMember a) s =
  if bool_decide (nodeAddress (member s a) <> 0) then Ok (member s a)
  else Reverted (Error "Member does not exist").
Proof.
  unfold getMember, memberExists. tx_unfold.
  case_bool_decide; reflexivity.
Qed.

Lemma managed_dispatch_unauthorized e s c :
  msg_sender e <> manager s ->
  transact (dispatch c) e s = (s, Failure (Error "Only manager can call this function")).
Proof.
  intros H. destruct c as [a dn pk sn pv h p|a|a b|a dn pk sn pv h p|a|a sn pv h p]; simpl.
  - rewrite managed_addMember_eq. by rewrite bool_decide_false.
  - by apply managed_removeMember_unauthorized.
  - rewrite managed_updateMemberStatus_eq. by rewrite bool_decide_false.
  - rewrite managed_updateMemberDetails_eq. by rewrite bool_decide_false.
  - rewrite managed_transferManagerRole_eq. by rewrite bool_decide_false.
  - rewrite managed_updateSubnetMemberDetail_eq. by rewrite bool_decide_false.
Qed.

Lemma managed_authorized_not_unauthorized e s c r :
  msg_sender e = manager s ->
  snd (transact (dispatch c) e s) = Failure r ->
  errorKind r <> Some Unauthorized.
Proof.
  intros H.
  destruct c as [a dn pk sn pv h p|a|a b|a dn pk sn pv h p|a|a sn pv h p]; simpl.
  - rewrite managed_addMember_eq, bool_decide_true by done.
    repeat case_match; simpl; intros [= <-]; done.
  - rewrite managed_removeMember_eq, bool_decide_true by done.
    repeat case_match; simpl; intros [= <-]; done.
  - rewrite managed_updateMemberStatus_eq, bool_decide_true by done.
    repeat case_match; simpl; intros [= <-]; done.
  - rewrite managed_updateMemberDetails_eq, bool_decide_true by done.
    repeat case_match; simpl; intros [= <-]; done.
  - rewrite managed_transferManagerRole_eq, bool_decide_true by done.
    repeat case_match; simpl; intros [= <-]; done.
  - rewrite managed_updateSubnetMemberDetail_eq, bool_decide_true by done.
    repeat case_match; simpl; intros [= <-]; done.
Qed.

Lemma managed_wf_constructor d : wf (constructor d).
Proof.
  split; intros a; unfold present, member, mread; simpl; rewrite lookup_empty; simpl; auto.
  intros []; reflexivity.
Qed.

Lemma managed_keyed_not_present_zero s : keyed s -> ~ present s 0.
Proof. intros Hk Hp. destruct (Hk 0) as [H|H]; apply Hp; exact H. Qed.

Lemma managed_member_added s now a dn pk sn pv h p b :
  member (added s now a dn pk sn pv h p) b =
  if decide (a = b) then mkNodeMember dn a pk true now now sn pv h p else member s b.
Proof.
  unfold member, added, mread; simpl. rewrite lookup_insert.
  destruct (decide (a = b)); reflexivity.
Qed.

Lemma managed_member_removed s a i lastMember b :
  member (removed s a i lastMember) b = if decide (a = b) then zeroMember else member s b.
Proof.
  unfold member, removed, mread; simpl. rewrite lookup_delete.
  destruct (decide (a = b)); reflexivity.
Qed.

Lemma managed_wf_added s now a dn pk sn pv h p :
  wf s -> wf (added s now a dn pk sn pv h p).
Proof.
  intros [Hk He]. split.
  - intros b. rewrite managed_member_added. destruct (decide (a = b)); simpl; auto.
  - intros b. unfold present. rewrite managed_member_added. simpl.
    rewrite elem_of_app, list_elem_of_singleton.
    destruct (decide (a = b)) as [->|Hne]; simpl; [by right|].
    intros Hb. left. by apply He.
Qed.

Lemma managed_wf_removed s a k lastMember :
  wf s ->
  memberAddresses s !! k = Some a ->
  memberAddresses s !! (length (memberAddresses s) - 1)%nat = Some lastMember ->
  wf (removed s a (N.of_nat k) lastMember).
Proof.
  intros [Hk He] Hka Hlast. split.
  - intros b. rewrite managed_member_removed. destruct (decide (a = b)); simpl; auto.
  - intros b. unfold present. rewrite managed_member_removed. simpl. rewrite Nat2N.id.
    destruct (decide (a = b)) as [->|Hne]; simpl; [done|]. intros Hb.
    apply (swap_pop_keeps _ _ a lastMember Hka Hlast); [by apply He | done].
Qed.

Lemma managed_zero_stays_removed s a k lastMember :
  a <> 0 ->
  memberAddresses s !! k = Some a ->
  memberAddresses s !! (length (memberAddresses s) - 1)%nat = Some lastMember ->
  0 ∈ memberAddresses s -> 0 ∈ memberAddresses (removed s a (N.of_nat k) lastMember).
Proof.
  intros Ha Hka Hlast Hz. simpl. rewrite Nat2N.id.
  apply (swap_pop_keeps _ _ a lastMember Hka Hlast); done.
Qed.

Lemma managed_step_addMember e s a dn pk sn pv h p :
  msg_sender e = manager s -> nodeAddress (member s a) = 0 ->
  memberCount s + 1 <= uint256_max ->
  step s (e, AddMember a dn pk sn pv h p) = added s (block_timestamp e) a dn pk sn pv h p.
Proof.
  intros Ho Ha Hc. unfold step; simpl. rewrite managed_addMember_eq.
  rewrite !bool_decide_true by done.
  destruct (N.ltb_spec uint256_max (memberCount s + 1)); [lia|done].
Qed.

Lemma managed_step_removeMember e s a index lastMember :
  msg_sender e = manager s -> nodeAddress (member s a) <> 0 ->
  search a (memberAddresses s) 0 = (index, true) ->
  memberAddresses s !! (length (memberAddresses s) - 1)%nat = Some lastMember ->
  index < array_length (memberAddresses s) ->
  1 <= memberCount s ->
  step s (e, RemoveMember a) = removed s a index lastMember.
Proof.
  intros Ho Ha Hs Hl Hi Hc. unfold step; simpl. rewrite managed_removeMember_eq.
  rewrite !bool_decide_true, Hs, Hl by done.
  apply N.ltb_lt in Hi. rewrite Hi.
  destruct (N.ltb_spec (memberCount s) 1); [lia|done].
Qed.

Lemma managed_wf_update_member s a f :
  (forall r, nodeAddress (f r) = nodeAddress r) -> wf s -> wf (update_member a f s).
Proof.
  intros Hf [Hk He]. split.
  - intros b. rewrite managed_member_update_member.
    destruct (decide (a = b)) as [->|]; [rewrite Hf|]; apply Hk.
  - intros b. unfold present. rewrite managed_member_update_member.
    destruct (decide (a = b)) as [->|]; [rewrite Hf|]; apply He.
Qed.

Lemma managed_wf_step s tx : wf s -> wf (step s tx).
Proof.
  intros Hwf. destruct tx as [e c]. unfold step; simpl.
  destruct c as [a dn pk sn pv h p|a|a b|a dn pk sn pv h p|a|a sn pv h p]; simpl.
  - rewrite managed_addMember_eq. repeat case_bool_decide; simpl; try done.
    destruct (uint256_max <? memberCount s + 1); simpl; [done|]. by apply managed_wf_added.
  - destruct (managed_removeMember_cases e s a)
      as [[r ->]|[(_ & _ & _ & ->)|(_ & Hp & k & lm & Hk & Hl & ->)]]; simpl; try done.
    by apply managed_wf_removed.
  - rewrite managed_updateMemberStatus_eq. repeat case_bool_decide; simpl; try done.
    repeat apply managed_wf_update_member; try done; setter_ok.
  - rewrite managed_updateMemberDetails_eq. repeat case_bool_decide; simpl; try done.
    repeat apply managed_wf_update_member; try done; setter_ok.
  - rewrite managed_transferManagerRole_eq. repeat case_bool_decide; simpl; done.
  - rewrite managed_updateSubnetMemberDetail_eq. repeat case_bool_decide; simpl; try done.
    repeat apply managed_wf_update_member; try done; setter_ok.
Qed.

Lemma managed_wf_run txs s : wf s -> wf (run txs s).
Proof.
  revert s. induction txs as [|tx txs IH]; intros s Hs; [done|].
  simpl. apply IH. by apply managed_wf_step.
Qed.

Lemma managed_wf_reachable s : reachable s -> wf s.
Proof. intros (d & txs & ->). apply managed_wf_run, managed_wf_constructor. Qed.

Lemma managed_zero_stays_step s tx :
  wf s -> 0 ∈ memberAddresses s -> 0 ∈ memberAddresses (step s tx).
Proof.
  intros [Hkeyed _] Hz. destruct tx as [e c]. unfold step; simpl.
  destruct c as [a dn pk sn pv h p|a|a b|a dn pk sn pv h p|a|a sn pv h p]; simpl.
  - rewrite managed_addMember_eq. repeat case_bool_decide; simpl; try done.
    destruct (uint256_max <? memberCount s + 1); simpl; [done|].
    apply elem_of_app. by left.
  - destruct (managed_removeMember_cases e s a)
      as [[r ->]|[(_ & _ & _ & ->)|(_ & Hp & k & lm & Hk & Hl & ->)]]; simpl; try done.
    apply (managed_zero_stays_removed s a k lm); try done.
    intros ->. by apply (managed_keyed_not_present_zero s).
  - rewrite managed_updateMemberStatus_eq. repeat case_bool_decide; simpl; done.
  - rewrite managed_updateMemberDetails_eq. repeat case_bool_decide; simpl; done.
  - rewrite managed_transferManagerRole_eq. repeat case_bool_decide; simpl; done.
  - rewrite managed_updateSubnetMemberDetail_eq. repeat case_bool_decide; simpl; done.
Qed.
Lemma managed_zero_stays_run txs s :
  wf s -> 0 ∈ memberAddresses s -> 0 ∈ memberAddresses (run txs s).
Proof.
  revert s. induction txs as [|tx txs IH]; intros s Hs Hz; [done|].
  simpl. apply IH; [by apply managed_wf_step | by apply managed_zero_stays_step].
Qed.

End ManagedFacts.

(** * The claims *)

(** Claim C1 (index consistency).  [addMember] has no guard against the
    zero address, the value by which the contract tells an empty record
    from a member.  After the owner of a freshly deployed registry adds the
    zero address, the state is a reachable one in which [getAllMembers]
    returns [[0]] while [isMember 0] is false: the list is not the set of
    members and the invariant does not hold. *)
Theorem C1_zero_identity_defect :
  let s := Owned.run [(mkEnv 1 100, Owned.AddMember 0 "CN=Zero" [] 1001 1 "h0" 30303)]
             (Owned.constructor 1) in
  Owned.reachable s /\
  view Owned.getAllMembers s = Ok [0] /\
  view (Owned.isMember 0) s = Ok false /\
  ~ index_consistent s.
Proof.
  split; [by eexists _, _|]. split; [by vm_compute|]. split; [by vm_compute|].
  intros (l & Hl & Hiff & _).
  vm_compute in Hl. injection Hl as <-.
  assert (H : (0:address) ∈ [0:address]) by apply list_elem_of_here.
  apply Hiff in H. vm_compute in H. discriminate.
Qed.

(** Claim C2 (authority exclusivity).  In both contracts every
    state-changing function called by anyone but the current authority
    reverts with the error standing for [Unauthorized], and the storage
    (records, array, reverse map or counter, authority) is the one the call
    started from. *)
Theorem C2_authority_exclusivity :
  (forall s e c, Owned.owner s <> msg_sender e ->
     exists r, transact (Owned.dispatch c) e s = (s, Failure r) /\
               errorKind r = Some Unauthorized) /\
  (forall s e c, Managed.manager s <> msg_sender e ->
     exists r, transact (Managed.dispatch c) e s = (s, Failure r) /\
               errorKind r = Some Unauthorized).
Proof.
  split; intros s e c H.
  - exists (OwnableUnauthorizedAccount (msg_sender e)). split; [|done].
    by apply OwnedFacts.owned_dispatch_unauthorized.
  - exists (Error "Only manager can call this function"). split; [|done].
    apply ManagedFacts.managed_dispatch_unauthorized. congruence.
Qed.

(** C2 at a stranger's call on each contract. *)
Lemma C2_authority_exclusivity_witness :
  (exists r, transact (Owned.dispatch (Owned.RemoveMember 10)) (mkEnv 2 100) (Owned.constructor 1)
             = (Owned.constructor 1, Failure r) /\ errorKind r = Some Unauthorized) /\
  (exists r, transact (Managed.dispatch (Managed.TransferManagerRole 2)) (mkEnv 2 100)
               (Managed.constructor 1)
             = (Managed.constructor 1, Failure r) /\ errorKind r = Some Unauthorized).
Proof.
  split.
  - apply (proj1 C2_authority_exclusivity). simpl. lia.
  - apply (proj2 C2_authority_exclusivity). simpl. lia.
Defined.

(** Claim C4 (add/get round trip).  [addMember] has no guard against the
    zero address.  On a freshly deployed registry the zero address is
    absent and the owner's [addMember 0 ...] succeeds with [MemberAdded],
    storing the record under key 0; [getMember 0] then reverts with
    "Member does not exist" instead of returning the record just stored. *)
Theorem C4_zero_identity_defect :
  let e := mkEnv 1 100 in
  let s := Owned.constructor 1 in
  let s' := fst (transact (Owned.addMember 0 "CN=Zero" [] 1001 1 "h0" 30303) e s) in
  Owned.owner s = msg_sender e /\
  view (Owned.isMember 0) s = Ok false /\
  snd (transact (Owned.addMember 0 "CN=Zero" [] 1001 1 "h0" 30303) e s)
    = Success [Owned.MemberAdded 0 "CN=Zero"] /\
  Owned.member s' 0 = mkNodeMember "CN=Zero" 0 [] true 100 100 1001 1 "h0" 30303 /\
  view (Owned.getMember 0) s' = Reverted (Error "Member does not exist").
Proof. vm_compute. repeat split. Qed.

(** Claim C3 (swap-with-last removal).  [addMember] has no guard against
    the zero address.  With the three distinct identities [A = 0], [B = 1],
    [C = 2] added in that order to a freshly deployed registry of either
    contract and [B] removed, the list is [[A; C]] and [B] is no member,
    but [isMember A] is false where the claim has it true. *)
Theorem C3_zero_identity_defect :
  let so := Owned.run [(mkEnv 9 100, owned_add 0 node1); (mkEnv 9 101, owned_add 1 node2);
                       (mkEnv 9 102, owned_add 2 node3); (mkEnv 9 103, Owned.RemoveMember 1)]
              (Owned.constructor 9) in
  let sm := Managed.run [(mkEnv 9 100, managed_add 0 node1); (mkEnv 9 101, managed_add 1 node2);
                         (mkEnv 9 102, managed_add 2 node3); (mkEnv 9 103, Managed.RemoveMember 1)]
              (Managed.constructor 9) in
  (view Owned.getAllMembers so = Ok [0; 2] /\
   view (Owned.isMember 0) so = Ok false /\
   view (Owned.isMember 1) so = Ok false /\
   view (Owned.isMember 2) so = Ok true) /\
  (view Managed.getAllMembers sm = Ok [0; 2] /\
   view (Managed.isMember 0) sm = Ok false /\
   view (Managed.isMember 1) sm = Ok false /\
   view (Managed.isMember 2) sm = Ok true).
Proof. vm_compute. repeat split. Qed.

(** Claim C5 (a second add fails and changes nothing).  The modifier
    [memberDoesNotExist], there to block a second add, does not see the
    zero address.  On a freshly deployed registry of either contract the
    authority's second [addMember 0 ...] succeeds as the first did, emits
    [MemberAdded] again, overwrites the record and lengthens the list from
    [[0]] to [[0; 0]]. *)
Theorem C5_zero_identity_defect :
  let s := Owned.constructor 9 in
  let s1 := fst (transact (Owned.addMember 0 "CN=Zero" [17] 1001 1 "h1" 30303) (mkEnv 9 100) s) in
  let r2 := transact (Owned.addMember 0 "CN=Again" [34] 1002 2 "h2" 30304) (mkEnv 9 101) s1 in
  let m := Managed.constructor 9 in
  let m1 := fst (transact (Managed.addMember 0 "CN=Zero" [17] 1001 1 "h1" 30303)
                   (mkEnv 9 100) m) in
  let q2 := transact (Managed.addMember 0 "CN=Again" [34] 1002 2 "h2" 30304) (mkEnv 9 101) m1 in
  (snd r2 = Success [Owned.MemberAdded 0 "CN=Again"] /\
   view Owned.getAllMembers s1 = Ok [0] /\
   view Owned.getAllMembers (fst r2) = Ok [0; 0] /\
   x500Name (Owned.member s1 0) = "CN=Zero" /\
   x500Name (Owned.member (fst r2) 0) = "CN=Again" /\
   fst r2 <> s1) /\
  (snd q2 = Success [Managed.MemberAdded 0 "CN=Again"] /\
   view Managed.getAllMembers m1 = Ok [0] /\
   view Managed.getAllMembers (fst q2) = Ok [0; 0] /\
   fst q2 <> m1).
Proof.
  vm_compute. repeat split; intros H; discriminate H.
Qed.

(** Claim C6 (authority transfer).  [transferManagerRole] reverts with
    [Unauthorized] when the caller is not the manager; called by the manager
    it reverts with [InvalidTarget] for the zero address and otherwise
    stores [newManager] and emits [ManagerChanged].  Afterwards every
    state-changing call by a caller other than [newManager] reverts with
    [Unauthorized] and changes nothing -- so does every such call by the old
    manager, who handed the role to someone else -- and a call by
    [newManager] passes [onlyManager] and does not fail with
    [Unauthorized]. *)
Theorem C6_authority_transfer s e newManager :
  (msg_sender e <> Managed.manager s ->
     exists r, transact (Managed.transferManagerRole newManager) e s = (s, Failure r) /\
               errorKind r = Some Unauthorized) /\
  (msg_sender e = Managed.manager s -> newManager = 0 ->
     exists r, transact (Managed.transferManagerRole newManager) e s = (s, Failure r) /\
               errorKind r = Some InvalidTarget) /\
  (msg_sender e = Managed.manager s -> newManager <> 0 ->
     transact (Managed.transferManagerRole newManager) e s =
       (Managed.set_manager newManager s,
        Success [Managed.ManagerChanged (Managed.manager s) newManager]) /\
     Managed.manager (Managed.set_manager newManager s) = newManager /\
     (forall e' c,
        (msg_sender e' <> newManager ->
           exists r, transact (Managed.dispatch c) e' (Managed.set_manager newManager s)
                     = (Managed.set_manager newManager s, Failure r) /\
                     errorKind r = Some Unauthorized) /\
        (msg_sender e' = newManager ->
           call Managed.onlyManager e' (Managed.set_manager newManager s) = Ok tt /\
           ~ failsWith (snd (transact (Managed.dispatch c) e'
                               (Managed.set_manager newManager s))) Unauthorized)) /\
     (newManager <> Managed.manager s ->
      forall e' c, msg_sender e' = Managed.manager s ->
        exists r, transact (Managed.dispatch c) e' (Managed.set_manager newManager s)
                  = (Managed.set_manager newManager s, Failure r) /\
                  errorKind r = Some Unauthorized)).
Proof.
  rewrite ManagedFacts.managed_transferManagerRole_eq.
  split; [|split].
  - intros H. rewrite bool_decide_false by done. by eexists.
  - intros H ->. rewrite bool_decide_true, bool_decide_false by (by try intros ?).
    by eexists.
  - intros H Hn. rewrite !bool_decide_true by done.
    split; [done|]. split; [done|]. split.
    + intros e' c. split; intros He'.
      * rewrite ManagedFacts.managed_dispatch_unauthorized by done. by eexists.
      * split.
        -- unfold Managed.onlyManager. tx_unfold. simpl. by rewrite bool_decide_true.
        -- intros (rv & Hrv & Hk).
           by apply (ManagedFacts.managed_authorized_not_unauthorized e'
                       (Managed.set_manager newManager s) c rv).
    + intros Hne e' c He'.
      rewrite ManagedFacts.managed_dispatch_unauthorized by (simpl; congruence).
      by eexists.
Qed.

(** C6 at a handover from 1 to 2: the old manager's next call is refused,
    the new manager's passes the check. *)
Lemma C6_authority_transfer_witness :
  transact (Managed.transferManagerRole 2) (mkEnv 1 100) (Managed.constructor 1) =
    (Managed.set_manager 2 (Managed.constructor 1), Success [Managed.ManagerChanged 1 2]) /\
  (exists r, transact (Managed.dispatch (Managed.RemoveMember 5)) (mkEnv 1 101)
               (Managed.set_manager 2 (Managed.constructor 1))
             = (Managed.set_manager 2 (Managed.constructor 1), Failure r) /\
             errorKind r = Some Unauthorized) /\
  call Managed.onlyManager (mkEnv 2 101) (Managed.set_manager 2 (Managed.constructor 1)) = Ok tt.
Proof.
  destruct (C6_authority_transfer (Managed.constructor 1) (mkEnv 1 100) 2)
    as (_ & _ & H).
  destruct H as (Ht & _ & Hafter & Hold); [reflexivity | lia |].
  split; [exact Ht|]. split.
  - apply (Hold ltac:(simpl; lia) (mkEnv 1 101) (Managed.RemoveMember 5)). reflexivity.
  - apply (proj2 (Hafter (mkEnv 2 101) (Managed.RemoveMember 5))). reflexivity.
Defined.

(** Claim C7 (frame of the network-detail update).  Called by the manager
    for a member, [updateSubnetMemberDetail] succeeds, overwrites [serial],
    [platformVersion], [host] and [port], sets [lastUpdated] to the block
    timestamp, keeps [x500Name], [publicKey], [nodeAddress], [joinedAt] and
    [isActive] of that record, every other record, the member list, the
    manager and the counter; for a non-member it reverts with
    [NotFound] and changes nothing. *)
Theorem C7_network_detail_frame s e a sn pv h p :
  msg_sender e = Managed.manager s ->
  (view (Managed.isMember a) s = Ok true ->
     exists s',
       transact (Managed.updateSubnetMemberDetail a sn pv h p) e s
         = (s', Success [Managed.MemberUpdated a]) /\
       Managed.member s' a =
         mkNodeMember (x500Name (Managed.member s a)) (nodeAddress (Managed.member s a))
           (publicKey (Managed.member s a)) (isActive (Managed.member s a))
           (joinedAt (Managed.member s a)) (block_timestamp e) sn pv h p /\
       (forall b, b <> a -> Managed.member s' b = Managed.member s b) /\
       view Managed.getAllMembers s' = view Managed.getAllMembers s /\
       (forall b, view (Managed.isMember b) s' = view (Managed.isMember b) s) /\
       Managed.manager s' = Managed.manager s /\
       Managed.memberCount s' = Managed.memberCount s) /\
  (view (Managed.isMember a) s = Ok false ->
     exists r, transact (Managed.updateSubnetMemberDetail a sn pv h p) e s = (s, Failure r) /\
               errorKind r = Some NotFound).
Proof.
  intros Hm. rewrite ManagedFacts.managed_updateSubnetMemberDetail_eq.
  rewrite ManagedFacts.managed_isMember_view.
  rewrite (bool_decide_eq_true_2 _ Hm). split.
  - intros [= Hp]. rewrite Hp. eexists. split; [reflexivity|].
    assert (Hrec : forall b,
      Managed.member
        (Managed.update_member a (set_lastUpdated (block_timestamp e))
           (Managed.update_member a (set_port p)
              (Managed.update_member a (set_host h)
                 (Managed.update_member a (set_platformVersion pv)
                    (Managed.update_member a (set_serial sn) s))))) b =
      if decide (a = b) then
        mkNodeMember (x500Name (Managed.member s a)) (nodeAddress (Managed.member s a))
           (publicKey (Managed.member s a)) (isActive (Managed.member s a))
           (joinedAt (Managed.member s a)) (block_timestamp e) sn pv h p
      else Managed.member s b).
    { intros b. rewrite !ManagedFacts.managed_member_update_member.
      destruct (decide (a = b)) as [->|]; [|done].
      rewrite !decide_True by done. reflexivity. }
    split; [by rewrite Hrec, decide_True|].
    split; [intros b Hb; by rewrite Hrec, decide_False|].
    split; [reflexivity|]. split; [|done].
    intros b. rewrite !ManagedFacts.managed_isMember_view, Hrec.
    destruct (decide (a = b)) as [->|]; done.
  - intros [= Hp]. rewrite Hp. by eexists.
Qed.

(** C7 on a registry with one member. *)
Lemma C7_network_detail_frame_witness :
  let s := Managed.run [(mkEnv 9 100, managed_add 1 node1)] (Managed.constructor 9) in
  exists s',
    transact (Managed.updateSubnetMemberDetail 1 2002 2 "h1b" 30399) (mkEnv 9 105) s
      = (s', Success [Managed.MemberUpdated 1]) /\
    Managed.member s' 1 = mkNodeMember "CN=Node1" 1 [17] true 100 105 2002 2 "h1b" 30399.
Proof.
  destruct (C7_network_detail_frame
              (Managed.run [(mkEnv 9 100, managed_add 1 node1)] (Managed.constructor 9))
              (mkEnv 9 105) 1 2002 2 "h1b" 30399) as [H _]; [reflexivity|].
  destruct H as (s' & Ht & Hm & _); [reflexivity|].
  exists s'. split; [exact Ht|exact Hm].
Defined.

(** Events of the Ownable contract, call by call. *)
Lemma owned_events_once s e c :
  match snd (transact (Owned.dispatch c) e s) with
  | Success logs => logs = [owned_audit_event s c]
  | Failure _ => fst (transact (Owned.dispatch c) e s) = s
  end.
Proof.
  destruct c as [a dn pk sn pv h p|a|a b|a dn pk sn pv h p|a]; simpl.
  - rewrite OwnedFacts.owned_addMember_eq. repeat case_bool_decide; done.
  - destruct (OwnedFacts.owned_removeMember_cases e s a)
      as [[r ->]|(_ & _ & lm & _ & _ & ->)]; done.
  - rewrite OwnedFacts.owned_updateMemberStatus_eq. repeat case_bool_decide; done.
  - rewrite OwnedFacts.owned_updateMemberDetails_eq. repeat case_bool_decide; done.
  - rewrite OwnedFacts.owned_transferOwnership_eq. repeat case_bool_decide; done.
Qed.

(** Events of the manager contract.  The search of [removeMember] cannot
    miss a member that the invariant places in the array. *)
Lemma managed_events_once s e c :
  Managed.wf s ->
  match snd (transact (Managed.dispatch c) e s) with
  | Success logs => logs = [managed_audit_event s c]
  | Failure _ => fst (transact (Managed.dispatch c) e s) = s
  end.
Proof.
  intros [_ Hen].
  destruct c as [a dn pk sn pv h p|a|a b|a dn pk sn pv h p|a|a sn pv h p]; simpl.
  - rewrite ManagedFacts.managed_addMember_eq. repeat case_bool_decide; try done.
    by destruct (uint256_max <? Managed.memberCount s + 1).
  - destruct (ManagedFacts.managed_removeMember_cases e s a)
      as [[r ->]|[(_ & Hp & Hn & _)|(_ & _ & k & lm & _ & _ & ->)]]; try done.
    destruct Hn. by apply Hen.
  - rewrite ManagedFacts.managed_updateMemberStatus_eq. repeat case_bool_decide; done.
  - rewrite ManagedFacts.managed_updateMemberDetails_eq. repeat case_bool_decide; done.
  - rewrite ManagedFacts.managed_transferManagerRole_eq. repeat case_bool_decide; done.
  - rewrite ManagedFacts.managed_updateSubnetMemberDetail_eq. repeat case_bool_decide; done.
Qed.

(** Claim C8 (audit events exactly once).  A successful state-changing call
    emits exactly one event, the one of its kind ([MemberAdded] with the
    address and name for an add, [MemberRemoved] for a removal,
    [MemberUpdated] for each update, the authority-change event for a
    transfer), and a reverted call emits none; for every storage of the
    Ownable contract and every reachable storage of the manager contract. *)
Theorem C8_audit_events_exactly_once :
  (forall s e c,
     emitted (snd (transact (Owned.dispatch c) e s)) =
     match snd (transact (Owned.dispatch c) e s) with
     | Success _ => [owned_audit_event s c]
     | Failure _ => []
     end) /\
  (forall s e c, Managed.reachable s ->
     emitted (snd (transact (Managed.dispatch c) e s)) =
     match snd (transact (Managed.dispatch c) e s) with
     | Success _ => [managed_audit_event s c]
     | Failure _ => []
     end).
Proof.
  split.
  - intros s e c. pose proof (owned_events_once s e c) as H.
    by destruct (snd (transact (Owned.dispatch c) e s)).
  - intros s e c Hr.
    pose proof (managed_events_once s e c (ManagedFacts.managed_wf_reachable s Hr)) as H.
    by destruct (snd (transact (Managed.dispatch c) e s)).
Qed.

(** C8 at a removal in the manager contract. *)
Lemma C8_audit_events_exactly_once_witness :
  emitted (snd (transact (Managed.dispatch (Managed.RemoveMember 1)) (mkEnv 9 101)
                  (Managed.run [(mkEnv 9 100, managed_add 1 node1)] (Managed.constructor 9))))
  = [Managed.MemberRemoved 1].
Proof.
  apply (proj2 C8_audit_events_exactly_once
           (Managed.run [(mkEnv 9 100, managed_add 1 node1)] (Managed.constructor 9))
           (mkEnv 9 101) (Managed.RemoveMember 1)).
  exists 9, [(mkEnv 9 100, managed_add 1 node1)]. reflexivity.
Defined.

(** Why C8 speaks of reachable storages of the manager contract: in a
    storage whose array misses a member -- one that no sequence of calls
    produces -- the search of [removeMember] comes back empty-handed and the
    call succeeds without an event. *)
Lemma managed_silent_removal_unreachable :
  let s := Managed.mkStorage 9
             {[ 1 := mkNodeMember "CN=Node1" 1 [17] true 100 100 1001 1 "h1" 30303 ]}
             [] 1 in
  transact (Managed.removeMember 1) (mkEnv 9 101) s = (s, Success []).
Proof. vm_compute. reflexivity. Qed.

(** Claim C9 (status update and its timestamp), as amended.  For a member,
    [updateMemberStatus a false] by the authority succeeds, sets [isActive]
    to false and [lastUpdated] to the block timestamp of the call; the new
    [lastUpdated] is strictly greater than the previous one exactly when
    that timestamp is strictly greater than the previous [lastUpdated].
    In both contracts. *)
Theorem C9_status_update_timestamp :
  (forall s e a old,
     Owned.owner s = msg_sender e ->
     view (Owned.getMember a) s = Ok old ->
     exists s' new,
       transact (Owned.updateMemberStatus a false) e s = (s', Success [Owned.MemberUpdated a]) /\
       view (Owned.getMember a) s' = Ok new /\
       isActive new = false /\
       lastUpdated new = block_timestamp e /\
       (lastUpdated old < lastUpdated new <-> lastUpdated old < block_timestamp e)) /\
  (forall s e a old,
     msg_sender e = Managed.manager s ->
     view (Managed.getMember a) s = Ok old ->
     exists s' new,
       transact (Managed.updateMemberStatus a false) e s
         = (s', Success [Managed.MemberUpdated a]) /\
       view (Managed.getMember a) s' = Ok new /\
       isActive new = false /\
       lastUpdated new = block_timestamp e /\
       (lastUpdated old < lastUpdated new <-> lastUpdated old < block_timestamp e)).
Proof.
  split; intros s e a old Hauth Hget.
  - rewrite OwnedFacts.owned_getMember_view in Hget.
    case_bool_decide as Hp; [|done]. injection Hget as <-.
    rewrite OwnedFacts.owned_updateMemberStatus_eq, !bool_decide_true by done.
    eexists _, _. split; [reflexivity|].
    rewrite OwnedFacts.owned_getMember_view, !OwnedFacts.owned_member_update_member.
    rewrite !decide_True by done. simpl.
    rewrite bool_decide_true by done. done.
  - rewrite ManagedFacts.managed_getMember_view in Hget.
    case_bool_decide as Hp; [|done]. injection Hget as <-.
    rewrite ManagedFacts.managed_updateMemberStatus_eq, !bool_decide_true by done.
    eexists _, _. split; [reflexivity|].
    rewrite ManagedFacts.managed_getMember_view, !ManagedFacts.managed_member_update_member.
    rewrite !decide_True by done. simpl.
    rewrite bool_decide_true by done. done.
Qed.

(** C9 at an update sixty seconds after the add. *)
Lemma C9_status_update_timestamp_witness :
  let s := Owned.run [(mkEnv 9 100, owned_add 1 node1)] (Owned.constructor 9) in
  exists s' new,
    transact (Owned.updateMemberStatus 1 false) (mkEnv 9 160) s
      = (s', Success [Owned.MemberUpdated 1]) /\
    view (Owned.getMember 1) s' = Ok new /\
    isActive new = false /\
    lastUpdated new = 160 /\
    (100 < lastUpdated new <-> 100 < 160).
Proof.
  apply (proj1 C9_status_update_timestamp
           (Owned.run [(mkEnv 9 100, owned_add 1 node1)] (Owned.constructor 9))
           (mkEnv 9 160) 1
           (mkNodeMember "CN=Node1" 1 [17] true 100 100 1001 1 "h1" 30303)).
  - reflexivity.
  - reflexivity.
Defined.

(** C9 as stated fails when the update is mined with the timestamp of the
    add: [lastUpdated] stays where it was. *)
Lemma C9_same_timestamp_counterexample :
  let s := Owned.run [(mkEnv 9 100, owned_add 1 node1)] (Owned.constructor 9) in
  let r := transact (Owned.updateMemberStatus 1 false) (mkEnv 9 100) s in
  exists old new,
    view (Owned.getMember 1) s = Ok old /\
    snd r = Success [Owned.MemberUpdated 1] /\
    view (Owned.getMember 1) (fst r) = Ok new /\
    isActive new = false /\
    ~ (lastUpdated old < lastUpdated new).
Proof.
  eexists _, _. vm_compute. repeat split. intros H. discriminate H.
Qed.

(** Claim C10 (the zero address).  In every reachable state of the Ownable
    contract, [addMember] of the zero address by the owner succeeds and
    emits [MemberAdded]; from then on, whatever transactions follow,
    [isMember 0] is false, [getMember 0] reverts with [NotFound],
    [removeMember 0] by the owner reverts with [NotFound] and changes
    nothing, and [getAllMembers] contains the zero address. *)
Theorem C10_zero_identity s e dn pk sn pv h p :
  Owned.reachable s ->
  Owned.owner s = msg_sender e ->
  exists s',
    transact (Owned.addMember 0 dn pk sn pv h p) e s = (s', Success [Owned.MemberAdded 0 dn]) /\
    forall txs,
      view (Owned.isMember 0) (Owned.run txs s') = Ok false /\
      (exists r, view (Owned.getMember 0) (Owned.run txs s') = Reverted r /\
                 errorKind r = Some NotFound) /\
      (forall e', Owned.owner (Owned.run txs s') = msg_sender e' ->
         exists r, transact (Owned.removeMember 0) e' (Owned.run txs s')
                   = (Owned.run txs s', Failure r) /\
                   errorKind r = Some NotFound) /\
      (exists l, view Owned.getAllMembers (Owned.run txs s') = Ok l /\ 0 ∈ l).
Proof.
  intros Hr Ho. pose proof (OwnedFacts.owned_wf_reachable s Hr) as Hwf.
  assert (Hz : memberAddress (Owned.member s 0) = 0).
  { destruct Hwf as [Hk _]. by destruct (Hk 0). }
  eexists. split.
  { rewrite OwnedFacts.owned_addMember_eq, !bool_decide_true by done. reflexivity. }
  intros txs.
  set (s' := Owned.added s (block_timestamp e) 0 dn pk sn pv h p).
  assert (Hwf' : Owned.wf (Owned.run txs s')).
  { apply OwnedFacts.owned_wf_run, OwnedFacts.owned_wf_added; [done|].
    unfold Owned.present. tauto. }
  assert (Hz' : memberAddress (Owned.member (Owned.run txs s') 0) = 0).
  { destruct Hwf' as [Hk _]. by destruct (Hk 0). }
  split; [|split; [|split]].
  - rewrite OwnedFacts.owned_isMember_view. by rewrite bool_decide_false by (by intros ?).
  - rewrite OwnedFacts.owned_getMember_view. rewrite bool_decide_false by (by intros ?).
    by eexists.
  - intros e' He'. rewrite OwnedFacts.owned_removeMember_absent by done. by eexists.
  - eexists. split; [apply OwnedFacts.owned_getAllMembers_view|].
    apply OwnedFacts.owned_zero_stays_run.
    + apply OwnedFacts.owned_wf_added; [done|]. unfold Owned.present. tauto.
    + simpl. apply elem_of_app. right. apply list_elem_of_here.
Qed.

(** C10 after one ordinary member was added. *)
Lemma C10_zero_identity_witness :
  exists s',
    transact (Owned.addMember 0 "CN=Zero" [] 1001 1 "h0" 30303) (mkEnv 9 101)
      (Owned.run [(mkEnv 9 100, owned_add 1 node1)] (Owned.constructor 9))
      = (s', Success [Owned.MemberAdded 0 "CN=Zero"]) /\
    view (Owned.isMember 0) s' = Ok false /\
    (exists l, view Owned.getAllMembers s' = Ok l /\ 0 ∈ l).
Proof.
  destruct (C10_zero_identity
              (Owned.run [(mkEnv 9 100, owned_add 1 node1)] (Owned.constructor 9))
              (mkEnv 9 101) "CN=Zero" [] 1001 1 "h0" 30303) as (s' & Ht & H).
  - exists 9, [(mkEnv 9 100, owned_add 1 node1)]. reflexivity.
  - reflexivity.
  - exists s'. split; [exact Ht|].
    destruct (H []) as (Hm & _ & _ & Hl). split; [exact Hm|exact Hl].
Defined.

(** Property X11.  The script's [updateSubnetMemberDetail] command, run by
    the owner, on the storage [atRead] it reads and the storage [s] its
    transaction is mined on.  The write stores the new network details and
    the block timestamp together with the name and key the script has read
    before, and keeps [memberAddress], [isActive], [joinedAt], every other
    record, the array, the reverse map and the owner.  The name and key of
    the record are therefore left as they are exactly when they did not
    change between the read and the write; a change made in between is
    undone.  When the address is no member at the read, or no longer one at
    the write, the command fails with "Member does not exist" and changes
    nothing. *)
Lemma owned_network_detail_command_frame atRead s e a sn pv h p :
  Owned.owner s = msg_sender e ->
  (view (Owned.isMember a) atRead = Ok true ->
   view (Owned.isMember a) s = Ok true ->
     exists s',
       updateSubnetMemberDetail_command a sn pv h p atRead e s
         = (s', Success [Owned.MemberUpdated a]) /\
       Owned.member s' a =
         mkNodeMember (x500Name (Owned.member atRead a)) (memberAddress (Owned.member s a))
           (publicKey (Owned.member atRead a)) (isActive (Owned.member s a))
           (joinedAt (Owned.member s a)) (block_timestamp e) sn pv h p /\
       ((x500Name (Owned.member s' a) = x500Name (Owned.member s a) /\
         publicKey (Owned.member s' a) = publicKey (Owned.member s a)) <->
        (x500Name (Owned.member atRead a) = x500Name (Owned.member s a) /\
         publicKey (Owned.member atRead a) = publicKey (Owned.member s a))) /\
       (forall b, b <> a -> Owned.member s' b = Owned.member s b) /\
       Owned.memberAddresses s' = Owned.memberAddresses s /\
       Owned.memberIndex s' = Owned.memberIndex s /\
       Owned.owner s' = Owned.owner s) /\
  (view (Owned.isMember a) atRead = Ok true ->
   view (Owned.isMember a) s = Ok false ->
     updateSubnetMemberDetail_command a sn pv h p atRead e s
       = (s, Failure (Error "Member does not exist"))) /\
  (view (Owned.isMember a) atRead = Ok false ->
     updateSubnetMemberDetail_command a sn pv h p atRead e s
       = (s, Failure (Error "Member does not exist"))).
Proof.
  intros Ho. rewrite !OwnedFacts.owned_isMember_view.
  unfold updateSubnetMemberDetail_command.
  rewrite OwnedFacts.owned_getMember_view.
  split; [|split].
  - intros [= Hr] [= Hp]. rewrite Hr.
    rewrite OwnedFacts.owned_updateMemberDetails_eq, (bool_decide_eq_true_2 _ Ho), Hp.
    eexists. split; [reflexivity|].
    match goal with |- ?m = ?r /\ _ => assert (Hrec : m = r) end.
    { rewrite !OwnedFacts.owned_member_update_member, !decide_True by done.
      by destruct (Owned.member s a). }
    split; [exact Hrec|]. split; [by rewrite Hrec|].
    split; [|done].
    intros b Hb. by rewrite !OwnedFacts.owned_member_update_member, !decide_False.
  - intros [= Hr] [= Hp]. rewrite Hr.
    by rewrite OwnedFacts.owned_updateMemberDetails_eq, (bool_decide_eq_true_2 _ Ho), Hp.
  - intros [= Hr]. by rewrite Hr.
Qed.

(** The zero address in the manager contract behaves as in the Ownable
    one, as long as [memberCount] can still be incremented. *)
Lemma managed_zero_identity s e dn pk sn pv h p :
  Managed.reachable s ->
  msg_sender e = Managed.manager s ->
  Managed.memberCount s < uint256_max ->
  exists s',
    transact (Managed.addMember 0 dn pk sn pv h p) e s
      = (s', Success [Managed.MemberAdded 0 dn]) /\
    forall txs,
      view (Managed.isMember 0) (Managed.run txs s') = Ok false /\
      view (Managed.getMember 0) (Managed.run txs s')
        = Reverted (Error "Member does not exist") /\
      (forall e', msg_sender e' = Managed.manager (Managed.run txs s') ->
         transact (Managed.removeMember 0) e' (Managed.run txs s')
           = (Managed.run txs s', Failure (Error "Member does not exist"))) /\
      0 ∈ Managed.memberAddresses (Managed.run txs s').
Proof.
  intros Hr Ho Hc. pose proof (ManagedFacts.managed_wf_reachable s Hr) as Hwf.
  assert (Hz : nodeAddress (Managed.member s 0) = 0).
  { destruct Hwf as [Hk _]. by destruct (Hk 0). }
  eexists. split.
  { rewrite ManagedFacts.managed_addMember_eq, !bool_decide_true by done.
    destruct (N.ltb_spec uint256_max (Managed.memberCount s + 1)); [lia|reflexivity]. }
  intros txs.
  set (s' := Managed.added s (block_timestamp e) 0 dn pk sn pv h p).
  assert (Hwf' : Managed.wf (Managed.run txs s')).
  { by apply ManagedFacts.managed_wf_run, ManagedFacts.managed_wf_added. }
  assert (Hz' : nodeAddress (Managed.member (Managed.run txs s') 0) = 0).
  { destruct Hwf' as [Hk _]. by destruct (Hk 0). }
  split; [|split; [|split]].
  - rewrite ManagedFacts.managed_isMember_view. by rewrite bool_decide_false by (by intros ?).
  - rewrite ManagedFacts.managed_getMember_view. by rewrite bool_decide_false by (by intros ?).
  - intros e' He'. by rewrite ManagedFacts.managed_removeMember_absent.
  - apply ManagedFacts.managed_zero_stays_run.
    + by apply ManagedFacts.managed_wf_added.
    + simpl. apply elem_of_app. right. apply list_elem_of_here.
Qed.

(** * Further properties of the two contracts *)

(** *** The array as a multiset *)
Lemma snoc_insert_Permutation (l : list address) i m x :
  l !! i = Some m -> l ++ [x] ≡ₚ m :: <[i := x]> l.
Proof.
  revert i. induction l as [|y l IH]; intros i Hi; [done|].
  destruct i as [|i]; simpl in *.
  - injection Hi as ->. constructor. by rewrite Permutation_app_comm.
  - rewrite (IH i Hi). apply perm_swap.
Qed.

Lemma swap_pop_Permutation (l : list address) i m lastMember :
  l !! i = Some m ->
  l !! (length l - 1)%nat = Some lastMember ->
  l ≡ₚ m :: array_pop (<[i := lastMember]> l).
Proof.
  intros Hi Hlast. unfold array_pop. rewrite length_insert.
  pose proof (lookup_lt_Some _ _ _ Hi) as Hlt.
  assert (Hsplit : l = take (length l - 1) l ++ [lastMember]).
  { rewrite <- (take_S_r _ _ _ Hlast).
    replace (S (length l - 1)) with (length l) by lia. by rewrite take_ge. }
  destruct (decide (i = length l - 1)%nat) as [->|Hne].
  - assert (m = lastMember) as -> by congruence.
    rewrite list_insert_id by done.
    rewrite Hsplit at 1. by rewrite Permutation_app_comm.
  - rewrite take_insert_lt by lia.
    rewrite Hsplit at 1. apply snoc_insert_Permutation.
    rewrite lookup_take_lt by lia. done.
Qed.

(** A filter keeps a list whose elements all pass it. *)
Lemma filter_all_kept {A} (P : A -> Prop) `{!forall x, Decision (P x)} (l : list A) :
  (forall x, x ∈ l -> P x) -> filter P l = l.
Proof.
  induction l as [|x l IH]; intros Hall; [done|].
  rewrite filter_cons_True by (apply Hall; left).
  f_equal. apply IH. intros y Hy. apply Hall. by right.
Qed.

Module OwnedMore.
Import Owned.

Lemma owned_removed_Permutation s a lastMember :
  wf s -> present s a ->
  memberAddresses s !! (length (memberAddresses s) - 1)%nat = Some lastMember ->
  memberAddresses s ≡ₚ a :: memberAddresses (removed s a lastMember).
Proof.
  intros [_ Hi] Ha Hlast. simpl. apply swap_pop_Permutation; [by apply Hi|done].
Qed.

Lemma owned_general_constructor d : owned_general (constructor d).
Proof.
  split; [apply OwnedFacts.owned_wf_constructor|]. split.
  - intros a Ha. simpl in Ha. by apply elem_of_nil in Ha.
  - simpl. constructor.
Qed.

Lemma owned_general_added s now a dn pk sn pv h p :
  owned_general s -> ~ present s a -> owned_general (added s now a dn pk sn pv h p).
Proof.
  intros (Hwf & Hl & Hn) Ha. split; [by apply OwnedFacts.owned_wf_added|]. split.
  - intros b Hb Hb0. unfold present. rewrite OwnedFacts.owned_member_added.
    simpl in Hb. rewrite elem_of_app, list_elem_of_singleton in Hb.
    destruct (decide (a = b)) as [->|Hne]; simpl; [done|].
    destruct Hb as [Hb| ->]; [by apply Hl | done].
  - simpl. rewrite filter_app. apply NoDup_app. split; [done|]. split.
    + intros b [Hb0 Hb]%list_elem_of_filter Hb'.
      apply list_elem_of_filter in Hb' as [_ ->%list_elem_of_singleton].
      apply Ha. by apply Hl.
    + apply NoDup_filter, NoDup_singleton.
Qed.

Lemma owned_general_removed s a lastMember :
  owned_general s -> present s a ->
  memberAddresses s !! (length (memberAddresses s) - 1)%nat = Some lastMember ->
  owned_general (removed s a lastMember).
Proof.
  intros (Hwf & Hl & Hn) Ha Hlast.
  pose proof (owned_removed_Permutation s a lastMember Hwf Ha Hlast) as Hperm.
  assert (Ha0 : a <> 0) by (destruct Hwf; by apply (OwnedFacts.owned_keyed_present_nonzero s)).
  assert (Hn' : NoDup (a :: filter (fun a => a <> 0) (memberAddresses (removed s a lastMember)))).
  { rewrite Hperm in Hn. by rewrite filter_cons_True in Hn. }
  apply NoDup_cons in Hn' as [Hnot Hn'].
  split; [by apply OwnedFacts.owned_wf_removed|]. split; [|done].
  intros b Hb Hb0. unfold present. rewrite OwnedFacts.owned_member_removed.
  destruct (decide (a = b)) as [->|Hne].
  - destruct Hnot. by apply list_elem_of_filter.
  - apply Hl; [|done]. rewrite Hperm. by apply elem_of_cons; right.
Qed.

Lemma owned_general_update_member s a f :
  preserves_member_address f -> owned_general s -> owned_general (update_member a f s).
Proof.
  intros Hf (Hwf & Hl & Hn). split; [by apply OwnedFacts.owned_wf_update_member|].
  split; [|done].
  intros b Hb Hb0. unfold present. rewrite OwnedFacts.owned_member_update_member.
  destruct (decide (a = b)) as [->|]; [rewrite Hf|]; by apply Hl.
Qed.

Lemma owned_general_step s tx : owned_general s -> owned_general (step s tx).
Proof.
  intros Hs. destruct tx as [e c]. unfold step; simpl.
  destruct c as [a dn pk sn pv h p|a|a b|a dn pk sn pv h p|a]; simpl.
  - rewrite OwnedFacts.owned_addMember_eq. repeat case_bool_decide; simpl; try done.
    apply owned_general_added; [done|]. unfold present. tauto.
  - destruct (OwnedFacts.owned_removeMember_cases e s a)
      as [[r ->]|(_ & Hp & lm & Hl & _ & ->)]; simpl; [done|].
    by apply owned_general_removed.
  - rewrite OwnedFacts.owned_updateMemberStatus_eq.
    repeat case_bool_decide; simpl; try done.
    repeat apply owned_general_update_member; try done; setter_ok.
  - rewrite OwnedFacts.owned_updateMemberDetails_eq.
    repeat case_bool_decide; simpl; try done.
    repeat apply owned_general_update_member; try done; setter_ok.
  - rewrite OwnedFacts.owned_transferOwnership_eq.
    repeat case_bool_decide; simpl; done.
Qed.

Lemma owned_general_run txs s : owned_general s -> owned_general (run txs s).
Proof.
  revert s. induction txs as [|tx txs IH]; intros s Hs; [done|].
  simpl. apply IH. by apply owned_general_step.
Qed.

(** Property X1.  Every reachable storage of the Ownable contract is
    consistent up to zero entries: [isMember a] holds exactly for the nonzero
    addresses in [memberAddresses], these occur once each, and each member's
    record carries its address and [memberIndex] points at its slot. *)
Theorem owned_reachable_consistent s :
  reachable s -> owned_consistent_up_to_zero s.
Proof.
  intros (d & txs & ->).
  destruct (owned_general_run txs (constructor d) (owned_general_constructor d))
    as ([Hk Hi] & Hl & Hn).
  split; [|split; [done|]].
  - intros a. rewrite OwnedFacts.owned_isMember_view. split.
    + intros [= Ha%bool_decide_eq_true_1]. split.
      * by apply (OwnedFacts.owned_keyed_present_nonzero _ a Hk).
      * eapply list_elem_of_lookup_2. by apply Hi.
    + intros [Ha0 Ha]. f_equal. apply bool_decide_eq_true_2. by apply Hl.
  - intros a. rewrite OwnedFacts.owned_isMember_view.
    intros [= Ha%bool_decide_eq_true_1]. split; [|by apply Hi].
    destruct (Hk a); done.
Qed.

(** Property X2.  In a reachable storage of the Ownable contract no call
    panics: [removeMember] never underflows [length - 1], never indexes the
    array out of bounds and never pops an empty array; every revert is one of
    the contract's own errors. *)
Theorem owned_reverts_are_contract_errors s e c r :
  reachable s ->
  snd (transact (dispatch c) e s) = Failure r ->
  exists k, errorKind r = Some k.
Proof.
  intros Hr. pose proof (OwnedFacts.owned_wf_reachable s Hr) as [Hk Hi].
  destruct c as [a dn pk sn pv h p|a|a b|a dn pk sn pv h p|a]; simpl.
  - rewrite OwnedFacts.owned_addMember_eq.
    repeat case_bool_decide; simpl; intros [= <-]; by eexists.
  - rewrite OwnedFacts.owned_removeMember_eq.
    case_bool_decide; [|intros [= <-]; by eexists].
    case_bool_decide as Hp; [|intros [= <-]; by eexists].
    pose proof (Hi a Hp) as Hia. pose proof (lookup_lt_Some _ _ _ Hia) as Hlt.
    destruct (memberAddresses s !! (length (memberAddresses s) - 1)%nat) eqn:Hl.
    2:{ apply lookup_ge_None in Hl. lia. }
    unfold array_length.
    destruct (N.ltb_spec (indexOf s a) (N.of_nat (length (memberAddresses s))));
      [done|lia].
  - rewrite OwnedFacts.owned_updateMemberStatus_eq.
    repeat case_bool_decide; simpl; intros [= <-]; by eexists.
  - rewrite OwnedFacts.owned_updateMemberDetails_eq.
    repeat case_bool_decide; simpl; intros [= <-]; by eexists.
  - rewrite OwnedFacts.owned_transferOwnership_eq.
    repeat case_bool_decide; simpl; intros [= <-]; by eexists.
Qed.

(** Property X3.  In a reachable storage, [removeMember a] by the owner for
    a member [a] succeeds with [MemberRemoved a]; afterwards [a] is no
    member, [getMember a] reverts, every other record is untouched, and the
    array has lost exactly one entry, [a]. *)
Theorem owned_removeMember_effect s e a :
  reachable s ->
  owner s = msg_sender e ->
  view (isMember a) s = Ok true ->
  exists s',
    transact (removeMember a) e s = (s', Success [MemberRemoved a]) /\
    view (isMember a) s' = Ok false /\
    view (getMember a) s' = Reverted (Error "Member does not exist") /\
    (forall b, b <> a -> member s' b = member s b) /\
    memberAddresses s ≡ₚ a :: memberAddresses s' /\
    owner s' = owner s.
Proof.
  intros Hr Ho Hm. pose proof (OwnedFacts.owned_wf_reachable s Hr) as Hwf.
  rewrite OwnedFacts.owned_isMember_view in Hm.
  injection Hm as Hp%bool_decide_eq_true_1.
  destruct (OwnedFacts.owned_removeMember_cases e s a)
    as [[r Hf]|(_ & _ & lm & Hl & Hlt & Ht)].
  { exfalso. rewrite OwnedFacts.owned_removeMember_eq in Hf.
    rewrite !bool_decide_true in Hf by done.
    destruct Hwf as [_ Hi]. pose proof (Hi a Hp) as Hia.
    pose proof (lookup_lt_Some _ _ _ Hia) as Hlt.
    destruct (memberAddresses s !! (length (memberAddresses s) - 1)%nat) eqn:Hl.
    2:{ apply lookup_ge_None in Hl. lia. }
    unfold array_length in Hf.
    destruct (N.ltb_spec (indexOf s a) (N.of_nat (length (memberAddresses s))));
      [done|lia]. }
  exists (removed s a lm). split; [done|].
  rewrite OwnedFacts.owned_isMember_view, OwnedFacts.owned_getMember_view.
  rewrite OwnedFacts.owned_member_removed, decide_True by done. simpl.
  split; [done|]. split; [done|]. split; [|split; [|done]].
  - intros b Hb. by rewrite OwnedFacts.owned_member_removed, decide_False.
  - by apply owned_removed_Permutation.
Qed.

Lemma owned_run_adds d items s :
  owner s = d ->
  NoDup (map (fun item => snd (fst item)) items) ->
  (forall a, a ∈ map (fun item => snd (fst item)) items ->
     memberAddress (member s a) = 0) ->
  let s' := run (owned_adds d items) s in
  memberAddresses s' = memberAddresses s ++ map (fun item => snd (fst item)) items /\
  owner s' = d /\
  (forall a, a ∉ map (fun item => snd (fst item)) items -> member s' a = member s a) /\
  (forall t a det, (t, a, det) ∈ items ->
     member s' a =
       mkNodeMember (fst (fst (fst (fst (fst det))))) a (snd (fst (fst (fst (fst det)))))
         true t t (snd (fst (fst (fst det)))) (snd (fst (fst det)))
         (snd (fst det)) (snd det)).
Proof.
  revert s. induction items as [|[[t a] det] items IH]; intros s Ho Hnd Habs; simpl.
  { rewrite app_nil_r. repeat split; try done. intros ??? H. by apply elem_of_nil in H. }
  simpl in Hnd. apply NoDup_cons in Hnd as [Hnotin Hnd].
  destruct det as [[[[[dn pk] sn] pv] h] p]. simpl.
  rewrite OwnedFacts.owned_step_addMember; [|done|apply Habs; simpl; apply list_elem_of_here].
  simpl.
  set (s1 := added s t a dn pk sn pv h p).
  destruct (IH s1) as (Hl & Ho' & Hother & Hrec); [done|done| |].
  { intros b Hb. unfold s1. rewrite OwnedFacts.owned_member_added.
    rewrite decide_False by (intros ->; done).
    apply Habs. simpl. by apply elem_of_cons; right. }
  split; [|split; [done|split]].
  - rewrite Hl. simpl. by rewrite <- app_assoc.
  - intros b Hb. apply not_elem_of_cons in Hb as [Hba Hb].
    rewrite Hother by done. unfold s1.
    by rewrite OwnedFacts.owned_member_added, decide_False.
  - intros t' a' det' [Heq|Hin]%elem_of_cons.
    + injection Heq as -> -> ->. simpl.
      rewrite Hother by done. unfold s1.
      by rewrite OwnedFacts.owned_member_added, decide_True.
    + by apply Hrec.
Qed.

(** Property X4.  On a fresh registry the owner's adds of distinct nonzero
    addresses all succeed and [getAllMembers] returns them in the order of
    the adds; the members are exactly these addresses. *)
Theorem owned_adds_in_order d items :
  NoDup (map (fun item => snd (fst item)) items) ->
  0 ∉ map (fun item => snd (fst item)) items ->
  let s := run (owned_adds d items) (constructor d) in
  view getAllMembers s = Ok (map (fun item => snd (fst item)) items) /\
  (forall a, view (isMember a) s = Ok true <->
             a ∈ map (fun item => snd (fst item)) items).
Proof.
  intros Hnd Hz.
  destruct (owned_run_adds d items (constructor d)) as (Hl & _ & Hother & Hrec); [done|done| |].
  { intros a _. unfold member, mread. simpl. by rewrite lookup_empty. }
  simpl. split.
  - by rewrite OwnedFacts.owned_getAllMembers_view, Hl.
  - intros a. rewrite OwnedFacts.owned_isMember_view. split.
    + intros [= Ha%bool_decide_eq_true_1].
      destruct (decide (a ∈ map (fun item => snd (fst item)) items)); [done|].
      exfalso. apply Ha. rewrite Hother by done.
      unfold member, mread. simpl. by rewrite lookup_empty.
    + intros Ha. f_equal. apply bool_decide_eq_true_2.
      apply list_elem_of_fmap in Ha as ([[t a'] det] & -> & Hin). simpl.
      rewrite (Hrec t a' det Hin). simpl. intros ->.
      apply Hz. apply list_elem_of_fmap. by exists (t, 0, det).
Qed.

(** Property X5.  Adding a nonzero non-member and removing it again leaves
    every view as it was: the same list, the same [isMember] and the same
    [getMember] for every address.  No assumption on the storage. *)
Theorem owned_add_remove_roundtrip s e1 e2 a dn pk sn pv h p :
  a <> 0 ->
  owner s = msg_sender e1 -> owner s = msg_sender e2 ->
  view (isMember a) s = Ok false ->
  let s' := run [(e1, AddMember a dn pk sn pv h p); (e2, RemoveMember a)] s in
  view getAllMembers s' = view getAllMembers s /\
  (forall b, view (isMember b) s' = view (isMember b) s) /\
  (forall b, view (getMember b) s' = view (getMember b) s) /\
  owner s' = owner s.
Proof.
  intros Ha0 Ho1 Ho2 Habs. rewrite OwnedFacts.owned_isMember_view in Habs.
  injection Habs as Habs%bool_decide_eq_false_1.
  assert (Hz : memberAddress (member s a) = 0).
  { destruct (decide (memberAddress (member s a) = 0)); [done|by destruct Habs]. }
  unfold run; simpl.
  rewrite OwnedFacts.owned_step_addMember by done.
  rewrite (OwnedFacts.owned_step_removeMember _ _ a a); simpl.
  2:{ done. }
  2:{ by rewrite OwnedFacts.owned_member_added, decide_True. }
  2:{ rewrite length_app. simpl.
      replace (length (memberAddresses s) + 1 - 1)%nat with (length (memberAddresses s)) by lia.
      rewrite lookup_app_r by lia. by rewrite Nat.sub_diag. }
  2:{ rewrite OwnedFacts.owned_indexOf_added, decide_True by done.
      unfold array_length. rewrite length_app. simpl. lia. }
  assert (Hmem : forall b,
    member (removed (added s (block_timestamp e1) a dn pk sn pv h p) a a) b =
    if decide (a = b) then zeroMember else member s b).
  { intros b. rewrite OwnedFacts.owned_member_removed, OwnedFacts.owned_member_added.
    repeat case_decide; done. }
  split; [|split; [|split; [|done]]].
  - rewrite !OwnedFacts.owned_getAllMembers_view. f_equal. simpl.
    rewrite OwnedFacts.owned_indexOf_added, decide_True by done.
    unfold array_length, array_pop. rewrite Nat2N.id.
    rewrite length_insert, length_app. simpl.
    replace (length (memberAddresses s) + 1 - 1)%nat with (length (memberAddresses s)) by lia.
    rewrite take_insert_ge by lia. by rewrite take_app_length.
  - intros b. rewrite !OwnedFacts.owned_isMember_view, Hmem.
    destruct (decide (a = b)) as [<-|]; [|done]. simpl. by rewrite Hz.
  - intros b. rewrite !OwnedFacts.owned_getMember_view, Hmem.
    destruct (decide (a = b)) as [<-|]; [|done]. simpl. rewrite Hz.
    by rewrite bool_decide_false by (by intros ?).
Qed.

(** Property X6.  [updateMemberDetails] by the owner overwrites name, key,
    serial, platform version, host and port of a member, sets [lastUpdated]
    to the block timestamp, and keeps [memberAddress], [isActive],
    [joinedAt], every other record, the array, the reverse map and the
    owner; for a non-member it reverts and changes nothing. *)
Theorem owned_updateMemberDetails_frame s e a dn pk sn pv h p :
  owner s = msg_sender e ->
  (view (isMember a) s = Ok true ->
     exists s',
       transact (updateMemberDetails a dn pk sn pv h p) e s
         = (s', Success [MemberUpdated a]) /\
       member s' a =
         mkNodeMember dn (memberAddress (member s a)) pk (isActive (member s a))
           (joinedAt (member s a)) (block_timestamp e) sn pv h p /\
       (forall b, b <> a -> member s' b = member s b) /\
       memberAddresses s' = memberAddresses s /\
       memberIndex s' = memberIndex s /\
       owner s' = owner s) /\
  (view (isMember a) s = Ok false ->
     transact (updateMemberDetails a dn pk sn pv h p) e s
       = (s, Failure (Error "Member does not exist"))).
Proof.
  intros Ho. rewrite OwnedFacts.owned_isMember_view.
  rewrite OwnedFacts.owned_updateMemberDetails_eq, (bool_decide_eq_true_2 _ Ho). split.
  - intros [= Hp]. rewrite Hp. eexists. split; [reflexivity|].
    split; [|split; [|done]].
    + by rewrite !OwnedFacts.owned_member_update_member, !decide_True.
    + intros b Hb. by rewrite !OwnedFacts.owned_member_update_member, !decide_False.
  - intros [= Hp]. by rewrite Hp.
Qed.

(** Property X7.  [updateMemberStatus] by the owner writes [isActive] and
    [lastUpdated] of a member and nothing else; for a non-member it reverts
    and changes nothing. *)
Theorem owned_updateMemberStatus_frame s e a b :
  owner s = msg_sender e ->
  (view (isMember a) s = Ok true ->
     exists s',
       transact (updateMemberStatus a b) e s = (s', Success [MemberUpdated a]) /\
       member s' a =
         mkNodeMember (x500Name (member s a)) (memberAddress (member s a))
           (publicKey (member s a)) b (joinedAt (member s a)) (block_timestamp e)
           (serial (member s a)) (platformVersion (member s a))
           (host (member s a)) (port (member s a)) /\
       (forall c, c <> a -> member s' c = member s c) /\
       memberAddresses s' = memberAddresses s /\
       memberIndex s' = memberIndex s /\
       owner s' = owner s) /\
  (view (isMember a) s = Ok false ->
     transact (updateMemberStatus a b) e s
       = (s, Failure (Error "Member does not exist"))).
Proof.
  intros Ho. rewrite OwnedFacts.owned_isMember_view.
  rewrite OwnedFacts.owned_updateMemberStatus_eq, (bool_decide_eq_true_2 _ Ho). split.
  - intros [= Hp]. rewrite Hp. eexists. split; [reflexivity|].
    split; [|split; [|done]].
    + by rewrite !OwnedFacts.owned_member_update_member, !decide_True.
    + intros c Hc. by rewrite !OwnedFacts.owned_member_update_member, !decide_False.
  - intros [= Hp]. by rewrite Hp.
Qed.

Lemma owned_step_keeps_joinedAt s tx a :
  present s a -> snd tx <> RemoveMember a ->
  present (step s tx) a /\
  joinedAt (member (step s tx) a) = joinedAt (member s a) /\
  memberAddress (member (step s tx) a) = memberAddress (member s a).
Proof.
  intros Hp Hne. destruct tx as [e c]. unfold step, present in *; simpl in *.
  destruct c as [b dn pk sn pv h p|b|b v|b dn pk sn pv h p|b]; simpl.
  - rewrite OwnedFacts.owned_addMember_eq. repeat case_bool_decide; simpl; try done.
    rewrite OwnedFacts.owned_member_added.
    destruct (decide (b = a)) as [->|]; [done|done].
  - destruct (OwnedFacts.owned_removeMember_cases e s b)
      as [[r ->]|(_ & _ & lm & _ & _ & ->)]; simpl; [done|].
    rewrite OwnedFacts.owned_member_removed.
    destruct (decide (b = a)) as [->|]; [done|done].
  - rewrite OwnedFacts.owned_updateMemberStatus_eq.
    repeat case_bool_decide; simpl; try done.
    rewrite !OwnedFacts.owned_member_update_member.
    repeat case_decide; subst; simpl; done.
  - rewrite OwnedFacts.owned_updateMemberDetails_eq.
    repeat case_bool_decide; simpl; try done.
    rewrite !OwnedFacts.owned_member_update_member.
    repeat case_decide; subst; simpl; done.
  - rewrite OwnedFacts.owned_transferOwnership_eq.
    repeat case_bool_decide; simpl; done.
Qed.

(** Property X8.  Whatever transactions follow, from whichever callers, a
    member stays a member with the same [joinedAt] and [memberAddress]
    unless one of them is [removeMember] of that member. *)
Theorem owned_joinedAt_immutable s txs a :
  view (isMember a) s = Ok true ->
  Forall (fun tx => snd tx <> RemoveMember a) txs ->
  view (isMember a) (run txs s) = Ok true /\
  joinedAt (member (run txs s) a) = joinedAt (member s a) /\
  memberAddress (member (run txs s) a) = memberAddress (member s a).
Proof.
  rewrite !OwnedFacts.owned_isMember_view.
  intros [= Hp%bool_decide_eq_true_1] Hall.
  cut (present (run txs s) a /\
       joinedAt (member (run txs s) a) = joinedAt (member s a) /\
       memberAddress (member (run txs s) a) = memberAddress (member s a)).
  { intros (H1 & H2 & H3). split; [|done]. f_equal. by apply bool_decide_eq_true_2. }
  revert s Hp. induction Hall as [|tx txs Htx Hall IH]; intros s Hp; [done|].
  simpl. destruct (owned_step_keeps_joinedAt s tx a Hp Htx) as (Hp' & Hj & Hm).
  destruct (IH _ Hp') as (H1 & H2 & H3).
  split; [done|]. split; congruence.
Qed.

Lemma owned_stamped_step t s tx :
  owned_stamped t s -> t <= block_timestamp (fst tx) ->
  owned_stamped (block_timestamp (fst tx)) (step s tx).
Proof.
  intros Hs Ht. destruct tx as [e c]. unfold step, owned_stamped, present in *; simpl in *.
  assert (Hweak : forall a, memberAddress (member s a) <> 0 ->
            joinedAt (member s a) <= lastUpdated (member s a) /\
            lastUpdated (member s a) <= block_timestamp e).
  { intros a Ha. destruct (Hs a Ha). split; lia. }
  destruct c as [b dn pk sn pv h p|b|b v|b dn pk sn pv h p|b]; simpl.
  - rewrite OwnedFacts.owned_addMember_eq. repeat case_bool_decide; simpl; try done.
    intros a. rewrite OwnedFacts.owned_member_added.
    destruct (decide (b = a)) as [->|]; simpl; [lia|apply Hweak].
  - destruct (OwnedFacts.owned_removeMember_cases e s b)
      as [[r ->]|(_ & _ & lm & _ & _ & ->)]; simpl; [done|].
    intros a. rewrite OwnedFacts.owned_member_removed.
    destruct (decide (b = a)) as [->|]; simpl; [done|apply Hweak].
  - rewrite OwnedFacts.owned_updateMemberStatus_eq.
    repeat case_bool_decide; simpl; try done.
    intros a. rewrite !OwnedFacts.owned_member_update_member.
    repeat case_decide; subst; simpl; try done; [|apply Hweak].
    intros Ha. destruct (Hs a Ha). split; lia.
  - rewrite OwnedFacts.owned_updateMemberDetails_eq.
    repeat case_bool_decide; simpl; try done.
    intros a. rewrite !OwnedFacts.owned_member_update_member.
    repeat case_decide; subst; simpl; try done; [|apply Hweak].
    intros Ha. destruct (Hs a Ha). split; lia.
  - rewrite OwnedFacts.owned_transferOwnership_eq.
    repeat case_bool_decide; simpl; done.
Qed.

(** Property X9.  When block timestamps never decrease along the history,
    every record [getMember] returns has [joinedAt <= lastUpdated]. *)
Theorem owned_joinedAt_le_lastUpdated d txs a r :
  owned_chronological 0 txs ->
  view (getMember a) (run txs (constructor d)) = Ok r ->
  joinedAt r <= lastUpdated r.
Proof.
  intros Hc Hget.
  assert (Hgen : forall txs t s, owned_stamped t s -> owned_chronological t txs ->
            exists t', owned_stamped t' (run txs s)).
  { clear. induction txs as [|tx txs IH]; intros t s Hs Hc; [by exists t|].
    destruct Hc as [Ht Hc]. simpl.
    apply (IH (block_timestamp (fst tx))); [by apply (owned_stamped_step t)|done]. }
  destruct (Hgen txs 0 (constructor d)) as [t' Hst]; [|done|].
  { intros b Hb. exfalso. apply Hb. unfold member, mread. simpl.
    by rewrite lookup_empty. }
  rewrite OwnedFacts.owned_getMember_view in Hget.
  case_bool_decide as Hp; [|done]. injection Hget as <-.
  by destruct (Hst a Hp).
Qed.

(** Property X10.  Swap with the last slot, in general: a successful
    [removeMember a] leaves an array one slot shorter in which the slot of
    [a] holds the former last address and every other remaining slot is
    unchanged; the reverse map of the moved address is the slot of [a], and
    no other member's reverse map changes. *)
Theorem owned_removeMember_slots s e a :
  reachable s ->
  owner s = msg_sender e ->
  view (isMember a) s = Ok true ->
  exists lastMember,
    memberAddresses s !! (length (memberAddresses s) - 1)%nat = Some lastMember /\
    memberAddresses s !! N.to_nat (indexOf s a) = Some a /\
    (forall j x,
       memberAddresses (step s (e, RemoveMember a)) !! j = Some x <->
       (j < length (memberAddresses s) - 1)%nat /\
       ((j = N.to_nat (indexOf s a) /\ x = lastMember) \/
        (j <> N.to_nat (indexOf s a) /\ memberAddresses s !! j = Some x))) /\
    (lastMember <> a ->
       indexOf (step s (e, RemoveMember a)) lastMember = indexOf s a) /\
    (forall b, b <> a -> b <> lastMember ->
       indexOf (step s (e, RemoveMember a)) b = indexOf s b).
Proof.
  intros Hr Ho Hm. pose proof (OwnedFacts.owned_wf_reachable s Hr) as [Hk Hi].
  rewrite OwnedFacts.owned_isMember_view in Hm.
  injection Hm as Hp%bool_decide_eq_true_1.
  pose proof (Hi a Hp) as Hia. pose proof (lookup_lt_Some _ _ _ Hia) as Hlt.
  destruct (memberAddresses s !! (length (memberAddresses s) - 1)%nat)
    as [lastMember|] eqn:Hl.
  2:{ apply lookup_ge_None in Hl. lia. }
  exists lastMember. split; [done|]. split; [done|].
  rewrite (OwnedFacts.owned_step_removeMember e s a lastMember); try done.
  2:{ unfold array_length. lia. }
  split; [|split].
  - intros j x. simpl. by apply swap_pop_lookup with (m := a).
  - intros Hne. rewrite OwnedFacts.owned_indexOf_removed.
    rewrite decide_False by done. by rewrite decide_True.
  - intros b Hb Hbl. rewrite OwnedFacts.owned_indexOf_removed.
    by rewrite !decide_False.
Qed.

(** Property X12.  Run by anyone but the owner, the script's
    [updateSubnetMemberDetail] command changes nothing: for a member the
    write reverts as unauthorized, for a non-member the read reverts first
    with "Member does not exist"; whichever storage the read saw and
    whichever the write is mined on. *)
Theorem owned_network_detail_command_stranger atRead s e a sn pv h p :
  owner s <> msg_sender e ->
  (view (isMember a) atRead = Ok true ->
     updateSubnetMemberDetail_command a sn pv h p atRead e s
       = (s, Failure (OwnableUnauthorizedAccount (msg_sender e)))) /\
  (view (isMember a) atRead = Ok false ->
     updateSubnetMemberDetail_command a sn pv h p atRead e s
       = (s, Failure (Error "Member does not exist"))).
Proof.
  intros Ho. rewrite OwnedFacts.owned_isMember_view. unfold updateSubnetMemberDetail_command.
  rewrite OwnedFacts.owned_getMember_view. split.
  - intros [= Hp]. rewrite Hp.
    by rewrite OwnedFacts.owned_updateMemberDetails_eq, bool_decide_false.
  - intros [= Hp]. by rewrite Hp.
Qed.
(** Property X20.  In a reachable state of the Ownable contract the
    index-consistency invariant holds exactly when the zero address is not
    in the array; calls that tried to add the zero address and reverted do
    not matter. *)
Theorem owned_index_consistent_iff_zero_unlisted s :
  reachable s -> (index_consistent s <-> 0 ∉ memberAddresses s).
Proof.
  intros (d & txs & ->).
  destruct (owned_general_run txs (constructor d) (owned_general_constructor d))
    as ([Hk Hi] & Hl & Hn).
  set (s := run txs (constructor d)) in *.
  split.
  - intros (l & Hv & Hiff & _) Hz.
    rewrite OwnedFacts.owned_getAllMembers_view in Hv. injection Hv as <-.
    apply Hiff in Hz. rewrite OwnedFacts.owned_isMember_view in Hz.
    injection Hz as Hz%bool_decide_eq_true_1.
    by apply (OwnedFacts.owned_keyed_present_nonzero s 0 Hk).
  - intros Hz.
    assert (Hnz : forall a, a ∈ memberAddresses s -> a <> 0) by (intros a Ha ->; done).
    exists (memberAddresses s).
    split; [apply OwnedFacts.owned_getAllMembers_view|]. split; [|split].
    + intros a. rewrite OwnedFacts.owned_isMember_view. split.
      * intros Ha. f_equal. apply bool_decide_eq_true_2. apply Hl; [done|by apply Hnz].
      * intros [= Ha%bool_decide_eq_true_1]. eapply list_elem_of_lookup_2. by apply Hi.
    + by rewrite (filter_all_kept _ _ Hnz) in Hn.
    + intros a Ha. assert (Hp : present s a) by (apply Hl; [done|by apply Hnz]).
      split; [|by apply Hi]. destruct (Hk a); done.
Qed.

End OwnedMore.

Module ManagedMore.
Import Managed.

Lemma managed_search_first m l i :
  match search m l i with
  | (index, true) =>
      exists k, index = i + N.of_nat k /\ l !! k = Some m /\
                forall j, (j < k)%nat -> l !! j <> Some m
  | (index, false) => index = 0 /\ m ∉ l
  end.
Proof.
  revert i. induction l as [|a l IH]; intros i; simpl.
  - split; [done|]. apply not_elem_of_nil.
  - case_bool_decide as Ha.
    + exists 0%nat. subst. split; [lia|]. split; [done|]. intros j Hj. lia.
    + specialize (IH (i + 1)). destruct (search m l (i + 1)) as [index [|]].
      * destruct IH as (k & -> & Hk & Hmin). exists (S k).
        split; [lia|]. split; [done|].
        intros [|j] Hj; simpl; [congruence|]. apply Hmin. lia.
      * destruct IH as [-> Hn]. split; [done|].
        rewrite elem_of_cons. intros [->|?]; done.
Qed.

(** Property X13.  The loop of [removeMember] returns the first position
    holding the address, with [found] set, when the address is in the array,
    and the defaults [(0, false)] when it is not. *)
Theorem search_first_occurrence m l :
  (m ∈ l ->
     exists k, search m l 0 = (N.of_nat k, true) /\ l !! k = Some m /\
               forall j, (j < k)%nat -> l !! j <> Some m) /\
  (m ∉ l -> search m l 0 = (0, false)).
Proof.
  pose proof (managed_search_first m l 0) as H.
  destruct (search m l 0) as [index [|]].
  - destruct H as (k & -> & Hk & Hmin). split.
    + intros _. exists k. by rewrite N.add_0_l.
    + intros Hn. destruct Hn. by eapply list_elem_of_lookup_2.
  - destruct H as [-> Hn]. split; [done|done].
Qed.

Lemma managed_general_constructor d : managed_general (constructor d).
Proof.
  split; [apply ManagedFacts.managed_wf_constructor|]. split; [by vm_compute|]. split.
  - intros a Ha. simpl in Ha. by apply elem_of_nil in Ha.
  - simpl. constructor.
Qed.

Lemma managed_general_added s now a dn pk sn pv h p :
  managed_general s -> ~ present s a -> memberCount s + 1 <= uint256_max ->
  managed_general (added s now a dn pk sn pv h p).
Proof.
  intros (Hwf & [Hc Hmax] & Hl & Hn) Ha Hroom.
  split; [by apply ManagedFacts.managed_wf_added|].
  split; [|split].
  - simpl. split; [|done]. rewrite Hc. unfold array_length. rewrite length_app. simpl. lia.
  - intros b Hb Hb0. unfold present. rewrite ManagedFacts.managed_member_added.
    simpl in Hb. rewrite elem_of_app, list_elem_of_singleton in Hb.
    destruct (decide (a = b)) as [->|Hne]; simpl; [done|].
    destruct Hb as [Hb| ->]; [by apply Hl | done].
  - simpl. rewrite filter_app. apply NoDup_app. split; [done|]. split.
    + intros b [Hb0 Hb]%list_elem_of_filter Hb'.
      apply list_elem_of_filter in Hb' as [_ ->%list_elem_of_singleton].
      apply Ha. by apply Hl.
    + apply NoDup_filter, NoDup_singleton.
Qed.

Lemma managed_removed_Permutation s a k lastMember :
  memberAddresses s !! k = Some a ->
  memberAddresses s !! (length (memberAddresses s) - 1)%nat = Some lastMember ->
  memberAddresses s ≡ₚ a :: memberAddresses (removed s a (N.of_nat k) lastMember).
Proof.
  intros Hk Hlast. simpl. rewrite Nat2N.id. by apply swap_pop_Permutation.
Qed.

Lemma managed_general_removed s a k lastMember :
  managed_general s -> present s a ->
  memberAddresses s !! k = Some a ->
  memberAddresses s !! (length (memberAddresses s) - 1)%nat = Some lastMember ->
  managed_general (removed s a (N.of_nat k) lastMember).
Proof.
  intros (Hwf & [Hc Hmax] & Hl & Hn) Ha Hk Hlast.
  pose proof (managed_removed_Permutation s a k lastMember Hk Hlast) as Hperm.
  assert (Ha0 : a <> 0).
  { intros ->. destruct Hwf as [Hkeyed _].
    by apply (ManagedFacts.managed_keyed_not_present_zero s). }
  assert (Hn' : NoDup (a :: filter (fun a => a <> 0)
                              (memberAddresses (removed s a (N.of_nat k) lastMember)))).
  { rewrite Hperm in Hn. by rewrite filter_cons_True in Hn. }
  apply NoDup_cons in Hn' as [Hnot Hn'].
  split; [by apply ManagedFacts.managed_wf_removed|]. split; [|split; [|done]].
  - pose proof (Permutation_length Hperm) as Hlen. cbn [length] in Hlen.
    change (memberCount s - 1 =
              array_length (memberAddresses (removed s a (N.of_nat k) lastMember)) /\
            memberCount s - 1 <= uint256_max).
    split; [|lia]. rewrite Hc. unfold array_length. rewrite Hlen. lia.
  - intros b Hb Hb0. unfold present. rewrite ManagedFacts.managed_member_removed.
    destruct (decide (a = b)) as [->|Hne].
    + destruct Hnot. by apply list_elem_of_filter.
    + apply Hl; [|done]. rewrite Hperm. by apply elem_of_cons; right.
Qed.

Lemma managed_general_update_member s a f :
  (forall r, nodeAddress (f r) = nodeAddress r) ->
  managed_general s -> managed_general (update_member a f s).
Proof.
  intros Hf (Hwf & Hc & Hl & Hn). split; [by apply ManagedFacts.managed_wf_update_member|].
  split; [done|]. split; [|done].
  intros b Hb Hb0. unfold present. rewrite ManagedFacts.managed_member_update_member.
  destruct (decide (a = b)) as [->|]; [rewrite Hf|]; by apply Hl.
Qed.

Lemma managed_general_step s tx : managed_general s -> managed_general (step s tx).
Proof.
  intros Hs. destruct tx as [e c]. unfold step; simpl.
  destruct c as [a dn pk sn pv h p|a|a b|a dn pk sn pv h p|a|a sn pv h p]; simpl.
  - rewrite ManagedFacts.managed_addMember_eq. repeat case_bool_decide; simpl; try done.
    destruct (N.ltb_spec uint256_max (memberCount s + 1)); simpl; [done|].
    apply managed_general_added; [done| |done]. unfold present. tauto.
  - destruct (ManagedFacts.managed_removeMember_cases e s a)
      as [[r ->]|[(_ & _ & _ & ->)|(_ & Hp & k & lm & Hk & Hl & ->)]]; simpl; try done.
    by apply managed_general_removed.
  - rewrite ManagedFacts.managed_updateMemberStatus_eq.
    repeat case_bool_decide; simpl; try done.
    repeat apply managed_general_update_member; try done; setter_ok.
  - rewrite ManagedFacts.managed_updateMemberDetails_eq.
    repeat case_bool_decide; simpl; try done.
    repeat apply managed_general_update_member; try done; setter_ok.
  - rewrite ManagedFacts.managed_transferManagerRole_eq.
    repeat case_bool_decide; simpl; try done.
  - rewrite ManagedFacts.managed_updateSubnetMemberDetail_eq.
    repeat case_bool_decide; simpl; try done.
    repeat apply managed_general_update_member; try done; setter_ok.
Qed.

Lemma managed_general_run txs s : managed_general s -> managed_general (run txs s).
Proof.
  revert s. induction txs as [|tx txs IH]; intros s Hs; [done|].
  simpl. apply IH. by apply managed_general_step.
Qed.

Lemma managed_general_reachable s : reachable s -> managed_general s.
Proof. intros (d & txs & ->). apply managed_general_run, managed_general_constructor. Qed.

(** Property X14.  Every reachable storage of the manager contract is
    consistent up to zero entries: the members are exactly the nonzero
    addresses in [memberAddresses], these occur once each, and [memberCount]
    equals the length of the array. *)
Theorem managed_reachable_consistent s :
  reachable s -> managed_consistent_up_to_zero s.
Proof.
  intros Hr. destruct (managed_general_reachable s Hr) as ([Hk He] & [Hc _] & Hl & Hn).
  split; [|done].
  intros a. rewrite ManagedFacts.managed_isMember_view. split.
  - intros [= Ha%bool_decide_eq_true_1]. split; [|by apply He].
    intros ->. by apply (ManagedFacts.managed_keyed_not_present_zero s).
  - intros [Ha0 Ha]. f_equal. apply bool_decide_eq_true_2. by apply Hl.
Qed.

Lemma managed_removeMember_succeeds s e a :
  managed_general s ->
  msg_sender e = manager s -> present s a ->
  exists k lastMember,
    memberAddresses s !! k = Some a /\
    memberAddresses s !! (length (memberAddresses s) - 1)%nat = Some lastMember /\
    transact (removeMember a) e s =
      (removed s a (N.of_nat k) lastMember, Success [MemberRemoved a]).
Proof.
  intros ([_ He] & [Hc _] & _ & _) Hm Hp.
  rewrite ManagedFacts.managed_removeMember_eq, !bool_decide_true by done.
  pose proof (managed_search_first a (memberAddresses s) 0) as Hs.
  destruct (search a (memberAddresses s) 0) as [index [|]].
  2:{ destruct Hs as [_ Hn]. destruct Hn. by apply He. }
  destruct Hs as (k & -> & Hk & _). rewrite N.add_0_l.
  pose proof (lookup_lt_Some _ _ _ Hk) as Hlt.
  destruct (memberAddresses s !! (length (memberAddresses s) - 1)%nat)
    as [lastMember|] eqn:Hl.
  2:{ apply lookup_ge_None in Hl. lia. }
  unfold array_length in *.
  destruct (N.ltb_spec (N.of_nat k) (N.of_nat (length (memberAddresses s)))); [|lia].
  destruct (N.ltb_spec (memberCount s) 1); [lia|].
  by exists k, lastMember.
Qed.

(** Property X15.  In a reachable storage of the manager contract a call
    reverts with one of the contract's own errors, except that [addMember]
    panics on the increment when [memberCount] is the largest [uint256];
    [removeMember] never panics. *)
Theorem managed_reverts_are_contract_errors s e c r :
  reachable s ->
  snd (transact (dispatch c) e s) = Failure r ->
  (exists k, errorKind r = Some k) \/
  (r = Panic 17 /\ memberCount s = uint256_max /\
   exists a dn pk sn pv h p, c = AddMember a dn pk sn pv h p).
Proof.
  intros Hr. pose proof (managed_general_reachable s Hr) as Hg.
  destruct c as [a dn pk sn pv h p|a|a b|a dn pk sn pv h p|a|a sn pv h p]; simpl.
  - rewrite ManagedFacts.managed_addMember_eq.
    case_bool_decide; [|intros [= <-]; left; by eexists].
    case_bool_decide; [|intros [= <-]; left; by eexists].
    destruct (N.ltb_spec uint256_max (memberCount s + 1)) as [Hov|]; [|done].
    intros [= <-]. right. split; [done|]. split; [|by eauto 10].
    destruct Hg as (_ & [_ Hmax] & _ & _). lia.
  - rewrite ManagedFacts.managed_removeMember_eq.
    case_bool_decide as Hm; [|intros [= <-]; left; by eexists].
    case_bool_decide as Hp; [|intros [= <-]; left; by eexists].
    destruct (managed_removeMember_succeeds s e a Hg Hm Hp) as (k & lm & _ & _ & Ht).
    rewrite ManagedFacts.managed_removeMember_eq, !bool_decide_true in Ht by done.
    by rewrite Ht.
  - rewrite ManagedFacts.managed_updateMemberStatus_eq.
    repeat case_bool_decide; simpl; intros [= <-]; left; by eexists.
  - rewrite ManagedFacts.managed_updateMemberDetails_eq.
    repeat case_bool_decide; simpl; intros [= <-]; left; by eexists.
  - rewrite ManagedFacts.managed_transferManagerRole_eq.
    repeat case_bool_decide; simpl; intros [= <-]; left; by eexists.
  - rewrite ManagedFacts.managed_updateSubnetMemberDetail_eq.
    repeat case_bool_decide; simpl; intros [= <-]; left; by eexists.
Qed.

(** Property X16.  In a reachable storage, [removeMember a] by the manager
    for a member [a] succeeds with [MemberRemoved a]; afterwards [a] is no
    member, every other record is untouched, the array has lost exactly one
    entry, [a], and [memberCount] is one less. *)
Theorem managed_removeMember_effect s e a :
  reachable s ->
  msg_sender e = manager s ->
  view (isMember a) s = Ok true ->
  exists s',
    transact (removeMember a) e s = (s', Success [MemberRemoved a]) /\
    view (isMember a) s' = Ok false /\
    view (getMember a) s' = Reverted (Error "Member does not exist") /\
    (forall b, b <> a -> member s' b = member s b) /\
    memberAddresses s ≡ₚ a :: memberAddresses s' /\
    memberCount s = memberCount s' + 1 /\
    manager s' = manager s.
Proof.
  intros Hr Hm Hv. pose proof (managed_general_reachable s Hr) as Hg.
  rewrite ManagedFacts.managed_isMember_view in Hv.
  injection Hv as Hp%bool_decide_eq_true_1.
  destruct (managed_removeMember_succeeds s e a Hg Hm Hp) as (k & lm & Hk & Hl & Ht).
  exists (removed s a (N.of_nat k) lm). split; [done|].
  rewrite ManagedFacts.managed_isMember_view, ManagedFacts.managed_getMember_view.
  rewrite ManagedFacts.managed_member_removed, decide_True by done. simpl.
  split; [done|]. split; [done|]. split; [|split; [|split; [|done]]].
  - intros b Hb. by rewrite ManagedFacts.managed_member_removed, decide_False.
  - by apply managed_removed_Permutation.
  - destruct Hg as (_ & [Hc _] & _ & _). apply lookup_lt_Some in Hk.
    unfold array_length in Hc. lia.
Qed.

Lemma managed_run_adds d items s :
  manager s = d ->
  NoDup (map (fun item => snd (fst item)) items) ->
  (forall a, a ∈ map (fun item => snd (fst item)) items ->
     nodeAddress (member s a) = 0) ->
  memberCount s + N.of_nat (length items) <= uint256_max ->
  let s' := run (managed_adds d items) s in
  memberAddresses s' = memberAddresses s ++ map (fun item => snd (fst item)) items /\
  memberCount s' = memberCount s + N.of_nat (length items) /\
  (forall a, a ∉ map (fun item => snd (fst item)) items -> member s' a = member s a) /\
  (forall a, a ∈ map (fun item => snd (fst item)) items -> nodeAddress (member s' a) = a).
Proof.
  revert s. induction items as [|[[t a] det] items IH]; intros s Ho Hnd Habs Hroom; simpl.
  { rewrite app_nil_r, N.add_0_r. repeat split; try done.
    intros ? H. by apply elem_of_nil in H. }
  simpl in Hnd, Hroom. apply NoDup_cons in Hnd as [Hnotin Hnd].
  destruct det as [[[[[dn pk] sn] pv] h] p]. simpl.
  rewrite ManagedFacts.managed_step_addMember;
    [|done|apply Habs; simpl; apply list_elem_of_here|lia].
  simpl.
  set (s1 := added s t a dn pk sn pv h p).
  destruct (IH s1) as (Hl & Hcnt & Hother & Hrec); [done|done| | |].
  { intros b Hb. unfold s1. rewrite ManagedFacts.managed_member_added.
    rewrite decide_False by (intros ->; done).
    apply Habs. simpl. by apply elem_of_cons; right. }
  { unfold s1. simpl. lia. }
  split; [|split; [|split]].
  - rewrite Hl. simpl. by rewrite <- app_assoc.
  - rewrite Hcnt. unfold s1. simpl. lia.
  - intros b Hb. apply not_elem_of_cons in Hb as [Hba Hb].
    rewrite Hother by done. unfold s1.
    by rewrite ManagedFacts.managed_member_added, decide_False.
  - intros b [->|Hin]%elem_of_cons.
    + rewrite Hother by done. unfold s1.
      by rewrite ManagedFacts.managed_member_added, decide_True.
    + by apply Hrec.
Qed.

(** Property X17.  On a fresh manager contract the manager's adds of
    distinct nonzero addresses all succeed, [getAllMembers] returns them in
    the order of the adds and [memberCount] is their number. *)
Theorem managed_adds_in_order d items :
  NoDup (map (fun item => snd (fst item)) items) ->
  0 ∉ map (fun item => snd (fst item)) items ->
  N.of_nat (length items) <= uint256_max ->
  let s := run (managed_adds d items) (constructor d) in
  view getAllMembers s = Ok (map (fun item => snd (fst item)) items) /\
  memberCount s = N.of_nat (length items) /\
  (forall a, view (isMember a) s = Ok true <->
             a ∈ map (fun item => snd (fst item)) items).
Proof.
  intros Hnd Hz Hlen.
  destruct (managed_run_adds d items (constructor d)) as (Hl & Hcnt & Hother & Hrec);
    [done|done| |done|].
  { intros a _. unfold member, mread. simpl. by rewrite lookup_empty. }
  simpl. split; [|split].
  - by rewrite ManagedFacts.managed_getAllMembers_view, Hl.
  - by rewrite Hcnt.
  - intros a. rewrite ManagedFacts.managed_isMember_view. split.
    + intros [= Ha%bool_decide_eq_true_1].
      destruct (decide (a ∈ map (fun item => snd (fst item)) items)); [done|].
      exfalso. apply Ha. rewrite Hother by done.
      unfold member, mread. simpl. by rewrite lookup_empty.
    + intros Ha. f_equal. apply bool_decide_eq_true_2.
      rewrite (Hrec a Ha). intros ->. done.
Qed.

(** Property X18.  [updateMemberDetails] of the manager contract overwrites
    name, key, serial, platform version, host and port of a member, sets
    [lastUpdated], and keeps [nodeAddress], [isActive], [joinedAt], every
    other record, the array, the counter and the manager; for a non-member
    it reverts and changes nothing. *)
Theorem managed_updateMemberDetails_frame s e a dn pk sn pv h p :
  msg_sender e = manager s ->
  (view (isMember a) s = Ok true ->
     exists s',
       transact (updateMemberDetails a dn pk sn pv h p) e s
         = (s', Success [MemberUpdated a]) /\
       member s' a =
         mkNodeMember dn (nodeAddress (member s a)) pk (isActive (member s a))
           (joinedAt (member s a)) (block_timestamp e) sn pv h p /\
       (forall b, b <> a -> member s' b = member s b) /\
       memberAddresses s' = memberAddresses s /\
       memberCount s' = memberCount s /\
       manager s' = manager s) /\
  (view (isMember a) s = Ok false ->
     transact (updateMemberDetails a dn pk sn pv h p) e s
       = (s, Failure (Error "Member does not exist"))).
Proof.
  intros Ho. rewrite ManagedFacts.managed_isMember_view.
  rewrite ManagedFacts.managed_updateMemberDetails_eq, (bool_decide_eq_true_2 _ Ho). split.
  - intros [= Hp]. rewrite Hp. eexists. split; [reflexivity|].
    split; [|split; [|done]].
    + by rewrite !ManagedFacts.managed_member_update_member, !decide_True.
    + intros b Hb. by rewrite !ManagedFacts.managed_member_update_member, !decide_False.
  - intros [= Hp]. by rewrite Hp.
Qed.
End ManagedMore.

(** ** Away from the zero address *)

(** Property X21.  Swap with the last slot, on three members: for three
    distinct nonzero addresses [A], [B], [C] added in that order by the
    authority to a freshly deployed registry, removing [B] leaves
    [getAllMembers] returning [[A; C]], [isMember B] false and [isMember A],
    [isMember C] true; in both contracts, whatever the timestamps and
    member details. *)
Theorem swap_removal_nonzero d A B C tA tB tC tR (dA dB dC : Details) :
  A <> 0 -> B <> 0 -> C <> 0 -> A <> B -> A <> C -> B <> C ->
  let so := Owned.run [(mkEnv d tA, owned_add A dA); (mkEnv d tB, owned_add B dB);
                       (mkEnv d tC, owned_add C dC); (mkEnv d tR, Owned.RemoveMember B)]
              (Owned.constructor d) in
  let sm := Managed.run [(mkEnv d tA, managed_add A dA); (mkEnv d tB, managed_add B dB);
                         (mkEnv d tC, managed_add C dC); (mkEnv d tR, Managed.RemoveMember B)]
              (Managed.constructor d) in
  (view Owned.getAllMembers so = Ok [A; C] /\
   view (Owned.isMember A) so = Ok true /\
   view (Owned.isMember B) so = Ok false /\
   view (Owned.isMember C) so = Ok true) /\
  (view Managed.getAllMembers sm = Ok [A; C] /\
   view (Managed.isMember A) sm = Ok true /\
   view (Managed.isMember B) sm = Ok false /\
   view (Managed.isMember C) sm = Ok true).
Proof.
  intros HA HB HC HAB HAC HBC.
  destruct dA as [[[[[dnA pkA] snA] pvA] hA] pA].
  destruct dB as [[[[[dnB pkB] snB] pvB] hB] pB].
  destruct dC as [[[[[dnC pkC] snC] pvC] hC] pC].
  split.
  - unfold Owned.run; simpl.
    rewrite (OwnedFacts.owned_step_addMember _ _ A) by done.
    rewrite (OwnedFacts.owned_step_addMember _ _ B); [|done|].
    2:{ by rewrite OwnedFacts.owned_member_added, decide_False. }
    rewrite (OwnedFacts.owned_step_addMember _ _ C); [|done|].
    2:{ by rewrite !OwnedFacts.owned_member_added, !decide_False. }
    rewrite (OwnedFacts.owned_step_removeMember _ _ B C); [|done| | |].
    2:{ rewrite !OwnedFacts.owned_member_added, decide_False, decide_True by done. done. }
    2:{ reflexivity. }
    2:{ rewrite !OwnedFacts.owned_indexOf_added, decide_False, decide_True by done.
        by vm_compute. }
    rewrite OwnedFacts.owned_getAllMembers_view, !OwnedFacts.owned_isMember_view.
    rewrite !OwnedFacts.owned_member_removed, !OwnedFacts.owned_member_added.
    simpl. rewrite !OwnedFacts.owned_indexOf_added.
    repeat first [rewrite decide_True by done | rewrite decide_False by done]; simpl.
    repeat first [rewrite bool_decide_true by done
                 | rewrite bool_decide_false by (intros ?; done)].
    done.
  - unfold Managed.run; simpl.
    rewrite (ManagedFacts.managed_step_addMember _ _ A); [|done|done|by vm_compute].
    rewrite (ManagedFacts.managed_step_addMember _ _ B); [|done| |by vm_compute].
    2:{ by rewrite ManagedFacts.managed_member_added, decide_False. }
    rewrite (ManagedFacts.managed_step_addMember _ _ C); [|done| |by vm_compute].
    2:{ by rewrite !ManagedFacts.managed_member_added, !decide_False. }
    rewrite (ManagedFacts.managed_step_removeMember _ _ B 1 C); [|done| | | | |].
    2:{ rewrite !ManagedFacts.managed_member_added, decide_False, decide_True by done. done. }
    2:{ simpl. by rewrite bool_decide_false, bool_decide_true. }
    2:{ reflexivity. }
    2:{ by vm_compute. }
    2:{ by vm_compute. }
    rewrite ManagedFacts.managed_getAllMembers_view, !ManagedFacts.managed_isMember_view.
    rewrite !ManagedFacts.managed_member_removed, !ManagedFacts.managed_member_added.
    simpl.
    repeat first [rewrite decide_True by done | rewrite decide_False by done]; simpl.
    repeat first [rewrite bool_decide_true by done
                 | rewrite bool_decide_false by (intros ?; done)].
    done.
Qed.

(** Property X22.  For a nonzero address [X] that is not a member,
    [addMember X ...] by the owner succeeds, and [getMember X] then returns
    the record with the supplied fields verbatim, [memberAddress = X],
    [isActive = true] and [joinedAt] and [lastUpdated] both equal to the
    block timestamp of the call. *)
Theorem add_get_roundtrip_nonzero s e X dn pk sn pv h p :
  X <> 0 ->
  Owned.owner s = msg_sender e ->
  view (Owned.isMember X) s = Ok false ->
  exists s',
    transact (Owned.addMember X dn pk sn pv h p) e s = (s', Success [Owned.MemberAdded X dn]) /\
    view (Owned.getMember X) s' =
      Ok (mkNodeMember dn X pk true (block_timestamp e) (block_timestamp e) sn pv h p).
Proof.
  intros HX Ho Ha. rewrite OwnedFacts.owned_isMember_view in Ha.
  injection Ha as Ha. apply bool_decide_eq_false_1 in Ha.
  assert (Hz : memberAddress (Owned.member s X) = 0).
  { destruct (decide (memberAddress (Owned.member s X) = 0)); [done|by destruct Ha]. }
  eexists. split.
  - rewrite OwnedFacts.owned_addMember_eq. rewrite !bool_decide_true by done. reflexivity.
  - rewrite OwnedFacts.owned_getMember_view, OwnedFacts.owned_member_added, decide_True by done.
    simpl. by rewrite bool_decide_true.
Qed.

(** Property X23.  For a nonzero address [X], when the authority calls
    [addMember X ...] twice in succession, with any two argument tuples, the
    second call reverts and leaves the storage reached after the first
    call; the revert is "Member already exists" ([AlreadyExists]) -- in the
    manager contract as long as [memberCount] can still be incremented. *)
Theorem second_add_reverts_nonzero :
  (forall s e1 e2 X dn1 pk1 sn1 pv1 h1 p1 dn2 pk2 sn2 pv2 h2 p2,
     X <> 0 ->
     Owned.owner s = msg_sender e1 -> Owned.owner s = msg_sender e2 ->
     let s1 := fst (transact (Owned.addMember X dn1 pk1 sn1 pv1 h1 p1) e1 s) in
     exists r, transact (Owned.addMember X dn2 pk2 sn2 pv2 h2 p2) e2 s1 = (s1, Failure r) /\
               errorKind r = Some AlreadyExists) /\
  (forall s e1 e2 X dn1 pk1 sn1 pv1 h1 p1 dn2 pk2 sn2 pv2 h2 p2,
     X <> 0 ->
     msg_sender e1 = Managed.manager s -> msg_sender e2 = Managed.manager s ->
     let s1 := fst (transact (Managed.addMember X dn1 pk1 sn1 pv1 h1 p1) e1 s) in
     exists r, transact (Managed.addMember X dn2 pk2 sn2 pv2 h2 p2) e2 s1 = (s1, Failure r) /\
               (Managed.memberCount s < uint256_max -> errorKind r = Some AlreadyExists)).
Proof.
  split; intros s e1 e2 X dn1 pk1 sn1 pv1 h1 p1 dn2 pk2 sn2 pv2 h2 p2 HX H1 H2 s1; subst s1.
  - exists (Error "Member already exists"). split; [|done].
    rewrite (OwnedFacts.owned_addMember_eq e1). rewrite bool_decide_true by done.
    case_bool_decide as Hp; simpl.
    + rewrite OwnedFacts.owned_addMember_eq. simpl. rewrite bool_decide_true by done.
      rewrite OwnedFacts.owned_member_added, decide_True by done. simpl.
      by rewrite bool_decide_false.
    + rewrite OwnedFacts.owned_addMember_eq. rewrite bool_decide_true by done.
      by rewrite bool_decide_false.
  - rewrite (ManagedFacts.managed_addMember_eq e1). rewrite bool_decide_true by done.
    case_bool_decide as Hp; simpl.
    + destruct (N.ltb_spec uint256_max (Managed.memberCount s + 1)) as [Hov|Hov]; simpl.
      * exists (Panic 0x11). split; [|intros; lia].
        rewrite ManagedFacts.managed_addMember_eq. rewrite !bool_decide_true by done.
        destruct (N.ltb_spec uint256_max (Managed.memberCount s + 1)); [done|lia].
      * exists (Error "Member already exists"). split; [|done].
        rewrite ManagedFacts.managed_addMember_eq. simpl. rewrite bool_decide_true by done.
        rewrite ManagedFacts.managed_member_added, decide_True by done. simpl.
        by rewrite bool_decide_false.
    + exists (Error "Member already exists"). split; [|done].
      rewrite ManagedFacts.managed_addMember_eq. rewrite bool_decide_true by done.
      by rewrite bool_decide_false.
Qed.

(** ** The properties at concrete histories *)

Lemma owned_reachable_consistent_witness :
  owned_consistent_up_to_zero (Owned.run history1 (Owned.constructor 9)).
Proof.
  apply OwnedMore.owned_reachable_consistent. exists 9, history1. reflexivity.
Defined.

Lemma owned_reverts_are_contract_errors_witness :
  exists k, errorKind (Error "Member does not exist") = Some k.
Proof.
  apply (OwnedMore.owned_reverts_are_contract_errors
           (Owned.run history1 (Owned.constructor 9)) (mkEnv 9 103) (Owned.RemoveMember 0)).
  - exists 9, history1. reflexivity.
  - reflexivity.
Defined.

Lemma owned_removeMember_effect_witness :
  exists s',
    transact (Owned.removeMember 1) (mkEnv 9 103) (Owned.run history1 (Owned.constructor 9))
      = (s', Success [Owned.MemberRemoved 1]) /\
    view (Owned.isMember 1) s' = Ok false /\
    view (Owned.getMember 1) s' = Reverted (Error "Member does not exist") /\
    (forall b, b <> 1 ->
       Owned.member s' b = Owned.member (Owned.run history1 (Owned.constructor 9)) b) /\
    Owned.memberAddresses (Owned.run history1 (Owned.constructor 9))
      ≡ₚ 1 :: Owned.memberAddresses s' /\
    Owned.owner s' = Owned.owner (Owned.run history1 (Owned.constructor 9)).
Proof.
  apply OwnedMore.owned_removeMember_effect.
  - exists 9, history1. reflexivity.
  - reflexivity.
  - reflexivity.
Defined.

Lemma owned_adds_in_order_witness :
  let s := Owned.run (owned_adds 9 [(100, 1, node1); (101, 2, node2); (101, 3, node3)])
             (Owned.constructor 9) in
  view Owned.getAllMembers s = Ok [1; 2; 3] /\
  (forall a, view (Owned.isMember a) s = Ok true <-> a ∈ [1; 2; 3]).
Proof.
  apply (OwnedMore.owned_adds_in_order 9 [(100, 1, node1); (101, 2, node2); (101, 3, node3)]).
  - by_compute.
  - by_compute.
Defined.

Lemma owned_add_remove_roundtrip_witness :
  let s := Owned.run history1 (Owned.constructor 9) in
  let s' := Owned.run [(mkEnv 9 103, Owned.AddMember 7 "CN=Node7" [7] 1007 1 "h7" 30307);
                       (mkEnv 9 104, Owned.RemoveMember 7)] s in
  view Owned.getAllMembers s' = view Owned.getAllMembers s /\
  (forall b, view (Owned.isMember b) s' = view (Owned.isMember b) s) /\
  (forall b, view (Owned.getMember b) s' = view (Owned.getMember b) s) /\
  Owned.owner s' = Owned.owner s.
Proof.
  apply (OwnedMore.owned_add_remove_roundtrip (Owned.run history1 (Owned.constructor 9))
           (mkEnv 9 103) (mkEnv 9 104) 7).
  - lia.
  - reflexivity.
  - reflexivity.
  - reflexivity.
Defined.

Lemma owned_updateMemberDetails_frame_witness :
  exists s',
    transact (Owned.updateMemberDetails 1 "CN=New" [9] 2002 2 "h1b" 30399) (mkEnv 9 105)
      (Owned.run history1 (Owned.constructor 9)) = (s', Success [Owned.MemberUpdated 1]) /\
    Owned.member s' 1 = mkNodeMember "CN=New" 1 [9] true 100 105 2002 2 "h1b" 30399.
Proof.
  destruct (OwnedMore.owned_updateMemberDetails_frame
              (Owned.run history1 (Owned.constructor 9)) (mkEnv 9 105) 1
              "CN=New" [9] 2002 2 "h1b" 30399) as [H _]; [reflexivity|].
  destruct H as (s' & Ht & Hm & _); [reflexivity|].
  exists s'. split; [exact Ht|exact Hm].
Defined.

Lemma owned_updateMemberStatus_frame_witness :
  exists s',
    transact (Owned.updateMemberStatus 1 false) (mkEnv 9 105)
      (Owned.run history1 (Owned.constructor 9)) = (s', Success [Owned.MemberUpdated 1]) /\
    Owned.member s' 1 = mkNodeMember "CN=Node1" 1 [17] false 100 105 1001 1 "h1" 30303.
Proof.
  destruct (OwnedMore.owned_updateMemberStatus_frame
              (Owned.run history1 (Owned.constructor 9)) (mkEnv 9 105) 1 false)
    as [H _]; [reflexivity|].
  destruct H as (s' & Ht & Hm & _); [reflexivity|].
  exists s'. split; [exact Ht|exact Hm].
Defined.

Lemma owned_joinedAt_immutable_witness :
  let s := Owned.run history1 (Owned.constructor 9) in
  let s' := Owned.run [(mkEnv 9 105, Owned.UpdateMemberStatus 1 false);
                       (mkEnv 9 106, Owned.RemoveMember 2);
                       (mkEnv 9 107, Owned.UpdateMemberDetails 1 "CN=New" [9] 2002 2 "h1b" 30399)]
              s in
  view (Owned.isMember 1) s' = Ok true /\
  joinedAt (Owned.member s' 1) = joinedAt (Owned.member s 1) /\
  memberAddress (Owned.member s' 1) = memberAddress (Owned.member s 1).
Proof.
  apply (OwnedMore.owned_joinedAt_immutable (Owned.run history1 (Owned.constructor 9))).
  - reflexivity.
  - repeat constructor; simpl; discriminate.
Defined.

Lemma owned_joinedAt_le_lastUpdated_witness :
  joinedAt (mkNodeMember "CN=Node1" 1 [17] false 100 105 1001 1 "h1" 30303)
  <= lastUpdated (mkNodeMember "CN=Node1" 1 [17] false 100 105 1001 1 "h1" 30303).
Proof.
  apply (OwnedMore.owned_joinedAt_le_lastUpdated 9
           (history1 ++ [(mkEnv 9 105, Owned.UpdateMemberStatus 1 false)]) 1).
  - simpl. lia.
  - reflexivity.
Defined.

Lemma owned_network_detail_command_frame_witness :
  let atRead := Owned.run history1 (Owned.constructor 9) in
  let s := Owned.step atRead
             (mkEnv 9 104, Owned.UpdateMemberDetails 1 "CN=Renamed" [9] 1 1 "h" 1) in
  exists s',
    updateSubnetMemberDetail_command 1 2002 2 "h1b" 30399 atRead (mkEnv 9 105) s
      = (s', Success [Owned.MemberUpdated 1]) /\
    Owned.member s' 1 = mkNodeMember "CN=Node1" 1 [17] true 100 105 2002 2 "h1b" 30399.
Proof.
  destruct (owned_network_detail_command_frame
              (Owned.run history1 (Owned.constructor 9))
              (Owned.step (Owned.run history1 (Owned.constructor 9))
                 (mkEnv 9 104, Owned.UpdateMemberDetails 1 "CN=Renamed" [9] 1 1 "h" 1))
              (mkEnv 9 105) 1 2002 2 "h1b" 30399) as [H _]; [reflexivity|].
  destruct H as (s' & Ht & Hm & _); [reflexivity|reflexivity|].
  exists s'. split; [exact Ht|exact Hm].
Defined.

Lemma search_first_occurrence_witness :
  exists k, Managed.search 5 [3; 5; 7; 5] 0 = (N.of_nat k, true) /\
            [3; 5; 7; 5] !! k = Some 5 /\
            forall j, (j < k)%nat -> [3; 5; 7; 5] !! j <> Some 5.
Proof.
  apply (proj1 (ManagedMore.search_first_occurrence 5 [3; 5; 7; 5])).
  by_compute.
Defined.

Lemma managed_reachable_consistent_witness :
  managed_consistent_up_to_zero (Managed.run managed_history1 (Managed.constructor 9)).
Proof.
  apply ManagedMore.managed_reachable_consistent. exists 9, managed_history1. reflexivity.
Defined.

Lemma managed_reverts_are_contract_errors_witness :
  (exists k, errorKind (Error "Member does not exist") = Some k) \/
  (Error "Member does not exist" = Panic 17 /\
   Managed.memberCount (Managed.run managed_history1 (Managed.constructor 9)) = uint256_max /\
   exists a dn pk sn pv h p, Managed.RemoveMember 0 = Managed.AddMember a dn pk sn pv h p).
Proof.
  apply (ManagedMore.managed_reverts_are_contract_errors
           (Managed.run managed_history1 (Managed.constructor 9)) (mkEnv 9 103)).
  - exists 9, managed_history1. reflexivity.
  - reflexivity.
Defined.

Lemma managed_removeMember_effect_witness :
  exists s',
    transact (Managed.removeMember 1) (mkEnv 9 103)
      (Managed.run managed_history1 (Managed.constructor 9))
      = (s', Success [Managed.MemberRemoved 1]) /\
    view (Managed.isMember 1) s' = Ok false /\
    Managed.memberCount (Managed.run managed_history1 (Managed.constructor 9))
      = Managed.memberCount s' + 1.
Proof.
  destruct (ManagedMore.managed_removeMember_effect
              (Managed.run managed_history1 (Managed.constructor 9)) (mkEnv 9 103) 1)
    as (s' & Ht & Hm & _ & _ & _ & Hc & _).
  - exists 9, managed_history1. reflexivity.
  - reflexivity.
  - reflexivity.
  - exists s'. split; [exact Ht|]. split; [exact Hm|exact Hc].
Defined.

Lemma managed_adds_in_order_witness :
  let s := Managed.run (managed_adds 9 [(100, 1, node1); (101, 2, node2); (101, 3, node3)])
             (Managed.constructor 9) in
  view Managed.getAllMembers s = Ok [1; 2; 3] /\
  Managed.memberCount s = 3 /\
  (forall a, view (Managed.isMember a) s = Ok true <-> a ∈ [1; 2; 3]).
Proof.
  apply (ManagedMore.managed_adds_in_order 9
           [(100, 1, node1); (101, 2, node2); (101, 3, node3)]).
  - by_compute.
  - by_compute.
  - by_compute.
Defined.

Lemma managed_updateMemberDetails_frame_witness :
  exists s',
    transact (Managed.updateMemberDetails 1 "CN=New" [9] 2002 2 "h1b" 30399) (mkEnv 9 105)
      (Managed.run managed_history1 (Managed.constructor 9))
      = (s', Success [Managed.MemberUpdated 1]) /\
    Managed.member s' 1 = mkNodeMember "CN=New" 1 [9] true 100 105 2002 2 "h1b" 30399.
Proof.
  destruct (ManagedMore.managed_updateMemberDetails_frame
              (Managed.run managed_history1 (Managed.constructor 9)) (mkEnv 9 105) 1
              "CN=New" [9] 2002 2 "h1b" 30399) as [H _]; [reflexivity|].
  destruct H as (s' & Ht & Hm & _); [reflexivity|].
  exists s'. split; [exact Ht|exact Hm].
Defined.

Lemma managed_zero_identity_witness :
  exists s',
    transact (Managed.addMember 0 "CN=Zero" [] 1001 1 "h0" 30303) (mkEnv 9 101)
      (Managed.run [(mkEnv 9 100, managed_add 1 node1)] (Managed.constructor 9))
      = (s', Success [Managed.MemberAdded 0 "CN=Zero"]) /\
    view (Managed.isMember 0) s' = Ok false /\
    0 ∈ Managed.memberAddresses s'.
Proof.
  destruct (managed_zero_identity
              (Managed.run [(mkEnv 9 100, managed_add 1 node1)] (Managed.constructor 9))
              (mkEnv 9 101) "CN=Zero" [] 1001 1 "h0" 30303) as (s' & Ht & H).
  - exists 9, [(mkEnv 9 100, managed_add 1 node1)]. reflexivity.
  - reflexivity.
  - by_compute.
  - exists s'. split; [exact Ht|].
    destruct (H []) as (Hm & _ & _ & Hl). split; [exact Hm|exact Hl].
Defined.

Lemma owned_removeMember_slots_witness :
  exists lastMember,
    Owned.memberAddresses (Owned.run history1 (Owned.constructor 9)) !! 2%nat
      = Some lastMember /\
    Owned.memberAddresses (Owned.step (Owned.run history1 (Owned.constructor 9))
                             (mkEnv 9 103, Owned.RemoveMember 1)) !! 0%nat
      = Some lastMember.
Proof.
  destruct (OwnedMore.owned_removeMember_slots
              (Owned.run history1 (Owned.constructor 9)) (mkEnv 9 103) 1)
    as (lm & Hl & _ & Hslots & _).
  - exists 9, history1. reflexivity.
  - reflexivity.
  - reflexivity.
  - exists lm. split; [exact Hl|].
    apply Hslots. split; [vm_compute; lia|]. left. split; reflexivity.
Defined.

Lemma owned_network_detail_command_stranger_witness :
  updateSubnetMemberDetail_command 1 2002 2 "h1b" 30399
    (Owned.run history1 (Owned.constructor 9)) (mkEnv 8 105)
    (Owned.run history1 (Owned.constructor 9))
  = (Owned.run history1 (Owned.constructor 9), Failure (OwnableUnauthorizedAccount 8)).
Proof.
  destruct (OwnedMore.owned_network_detail_command_stranger
              (Owned.run history1 (Owned.constructor 9))
              (Owned.run history1 (Owned.constructor 9)) (mkEnv 8 105) 1
              2002 2 "h1b" 30399) as [H _].
  - vm_compute. discriminate.
  - apply H. reflexivity.
Defined.

(** The invariant after a history in which a stranger's attempt to add the
    zero address was refused. *)
Lemma owned_index_consistent_iff_zero_unlisted_witness :
  index_consistent
    (Owned.run
       [(mkEnv 1 100, Owned.AddMember 10 "CN=Node1" [18; 52] 1001 1 "h1" 30303);
        (mkEnv 2 101, Owned.AddMember 0 "CN=Zero" [] 1001 1 "h0" 30303);
        (mkEnv 1 102, Owned.AddMember 11 "CN=Node2" [86] 1002 1 "h2" 30304);
        (mkEnv 1 103, Owned.RemoveMember 10)]
       (Owned.constructor 1)).
Proof.
  apply OwnedMore.owned_index_consistent_iff_zero_unlisted.
  - by eexists _, _.
  - apply (bool_decide_unpack _). vm_compute. exact I.
Defined.

(** The removal at the addresses 1, 2, 3. *)
Lemma swap_removal_nonzero_witness :
  let so := Owned.run [(mkEnv 9 100, owned_add 1 node1); (mkEnv 9 101, owned_add 2 node2);
                       (mkEnv 9 102, owned_add 3 node3); (mkEnv 9 103, Owned.RemoveMember 2)]
              (Owned.constructor 9) in
  let sm := Managed.run [(mkEnv 9 100, managed_add 1 node1); (mkEnv 9 101, managed_add 2 node2);
                         (mkEnv 9 102, managed_add 3 node3); (mkEnv 9 103, Managed.RemoveMember 2)]
              (Managed.constructor 9) in
  (view Owned.getAllMembers so = Ok [1; 3] /\
   view (Owned.isMember 1) so = Ok true /\
   view (Owned.isMember 2) so = Ok false /\
   view (Owned.isMember 3) so = Ok true) /\
  (view Managed.getAllMembers sm = Ok [1; 3] /\
   view (Managed.isMember 1) sm = Ok true /\
   view (Managed.isMember 2) sm = Ok false /\
   view (Managed.isMember 3) sm = Ok true).
Proof.
  apply (swap_removal_nonzero 9 1 2 3 100 101 102 103 node1 node2 node3); lia.
Defined.

(** The round trip on the freshly deployed registry. *)
Lemma add_get_roundtrip_nonzero_witness :
  exists s',
    transact (Owned.addMember 10 "CN=Node1" [18; 52] 1001 1 "h1" 30303) (mkEnv 1 100)
      (Owned.constructor 1) = (s', Success [Owned.MemberAdded 10 "CN=Node1"]) /\
    view (Owned.getMember 10) s' =
      Ok (mkNodeMember "CN=Node1" 10 [18; 52] true 100 100 1001 1 "h1" 30303).
Proof.
  apply (add_get_roundtrip_nonzero (Owned.constructor 1) (mkEnv 1 100)).
  - lia.
  - reflexivity.
  - reflexivity.
Defined.

(** The second add on the freshly deployed Ownable registry. *)
Lemma second_add_reverts_nonzero_witness :
  let s := Owned.constructor 9 in
  let s1 := fst (transact (Owned.addMember 1 "CN=Node1" [17] 1001 1 "h1" 30303) (mkEnv 9 100) s) in
  exists r, transact (Owned.addMember 1 "CN=Other" [34] 1002 2 "h2" 30304) (mkEnv 9 101) s1
            = (s1, Failure r) /\ errorKind r = Some AlreadyExists.
Proof.
  apply (proj1 second_add_reverts_nonzero (Owned.constructor 9) (mkEnv 9 100) (mkEnv 9 101) 1).
  - lia.
  - reflexivity.
  - reflexivity.
Defined.
